(** * Error estimators of fem/estimators.cpp

    A shallow embedding of the four [ComputeEstimates] methods of
    fem/estimators.cpp (Zienkiewicz-Zhu, its L2 variant, the Kelly face-jump
    estimator and the Lp estimator) and the properties their specification
    states about them.

    Numbers are the program's: [double] is IEEE binary64 (Rocq's primitive
    floats), [int] is [Z], with the 32-bit wrap-around written out where the
    program multiplies two of them; element and face counters of the [for]
    loops are [nat].  The objects the methods only query (mesh, finite element
    spaces, grid functions, element transformations) are records of the
    answers they give; the routines of other translation units are section
    variables. *)

From Stdlib Require Import Floats ZArith Lia.
From stdpp Require Import base list option.

Open Scope Z_scope.

Abbreviation double := float.

(** ** [int] arithmetic

    An [int] has 32 bits.  [int_wrap n] is the [int] with the bits of [n]
    (two's complement), and [int_mul] the product of two [int]s as the
    compiled program computes it: the exact product inside the range
    [-2^31 .. 2^31 - 1], the wrapped one outside. *)
Definition int_wrap (n : Z) : Z := (n + 2 ^ 31) mod 2 ^ 32 - 2 ^ 31.
Definition int_mul (a b : Z) : Z := int_wrap (a * b).

(** ** Outcome of a method call

    [Done s]: the call returned with state [s].  [Aborted s]: an
    MFEM_VERIFY / MFEM_ASSERT check failed when the state was [s].
    [Undefined]: a vector was indexed outside its range. *)
Inductive outcome (S : Type) : Type :=
| Done (s : S)
| Aborted (s : S)
| Undefined.
Arguments Done {S} s.
Arguments Aborted {S} s.
Arguments Undefined {S}.

(** Sequential [for] loop over the items [l], threading the loop state;
    it stops at the first iteration that has no defined result. *)
Fixpoint for_each {A S : Type} (body : A -> S -> option S) (l : list A) (s : S)
  : option S :=
  match l with
  | [] => Some s
  | a :: rest =>
      match body a s with
      | Some s' => for_each body rest s'
      | None => None
      end
  end.

(** ** linalg: Vector and Array<int> *)
Module Linalg.

Abbreviation Vector := (list double).
Abbreviation DenseMatrix := (list (list double)).

(** Modelled from the spec: Vector::SetSize (linalg/vector.hpp is not part
    of the sources).  The vector gets [n] entries; entries beyond the old
    size are not initialised by the library, and every caller below writes
    them before reading, so they are shown as 0. *)
Definition SetSize (n : nat) (v : Vector) : Vector := resize n 0%float v.

(** Modelled from the spec: Vector::operator=(double), all entries set to
    the value (used as [v = 0.0], the zero initialisation). *)
Definition Assign (c : double) (v : Vector) : Vector := replicate (length v) c.

(** Modelled from the spec: Vector::operator*(const Vector &), the scalar
    product "val . normal", accumulated from 0.0 in index order. *)
Definition dot (a b : Vector) : double :=
  foldl (fun s p => (s + p.1 * p.2)%float) 0%float (zip a b).

(** Modelled from the spec: Vector::Neg, every entry negated (the
    "negated normal"). *)
Definition Neg (v : Vector) : Vector := map PrimFloat.opp v.

(** Modelled from the spec: Vector::operator/=(double), every entry
    divided by the scalar ("scaled by the element Jacobian's metric
    weight"). *)
Definition Div (v : Vector) (c : double) : Vector :=
  map (fun x => (x / c)%float) v.

(** Modelled from the spec: Vector::Sum, the entries added up from 0.0 in
    index order ("sum over quadrature points", "sum all local per-element
    values"). *)
Definition Sum (v : Vector) : double :=
  foldl (fun s x => (s + x)%float) 0%float v.

(** [v(i) += x] for an [int] index: defined inside the range only. *)
Definition AddAt (v : Vector) (i : Z) (x : double) : option Vector :=
  if decide (0 <= i < Z.of_nat (length v))
  then Some (alter (fun y => (y + x)%float) (Z.to_nat i) v)
  else None.

(** Modelled from the spec: Vector::AddElementVector, "accumulate (add, not
    overwrite) that local contribution ... at the corresponding
    discontinuous degrees of freedom": [v(dofs[k]) += elemvect(k)] for every
    [k].  The degrees of freedom of a discontinuous space are plain
    non-negative indices. *)
Fixpoint AddElementVector (dofs : list Z) (elemvect : Vector) (v : Vector)
  : option Vector :=
  match dofs, elemvect with
  | j :: dofs', x :: elemvect' =>
      match AddAt v j x with
      | Some v' => AddElementVector dofs' elemvect' v'
      | None => None
      end
  | [], [] => Some v
  | _, _ => None
  end.

(** Modelled from the spec: Array<int>::Find (general/array.hpp is not
    part of the sources): the index of the first entry equal to [el], or
    -1 when there is none; the attribute filter is "excluded" exactly when
    it answers -1. *)
Fixpoint Find_from (a : list Z) (el : Z) (i : Z) : Z :=
  match a with
  | [] => -1
  | x :: rest => if x =? el then i else Find_from rest el (i + 1)
  end.
Definition Find (a : list Z) (el : Z) : Z := Find_from a el 0.

(** [Array::Size()], as the [int] the conditions test. *)
Definition Size (a : list Z) : Z := Z.of_nat (length a).

End Linalg.
Import Linalg.

(** ** Integration rules and element transformations (fem/intrules, fem/eltrans) *)

Record IntegrationPoint : Type := {
  x : double;
  y : double;
  z : double;
  weight : double
}.

(** An integration rule is its array of points: [GetNPoints] is the
    length, [IntPoint(i)] the i-th entry. *)
Abbreviation IntegrationRule := (list IntegrationPoint).

(** An [ElementTransformation] object.  [IntPoint] is the point last handed
    to [SetIntPoint] ([None]: never set); [Jacobian()], [AdjugateJacobian()]
    and [Weight()] are evaluated at that point, so they are given as
    functions of it. *)
Record ElementTransformation : Type := {
  Attribute : Z;
  IntPoint : option IntegrationPoint;
  EvalJacobian : option IntegrationPoint -> DenseMatrix;
  EvalAdjugateJacobian : option IntegrationPoint -> DenseMatrix;
  EvalWeight : option IntegrationPoint -> double
}.

Definition SetIntPoint (ip : IntegrationPoint) (T : ElementTransformation)
  : ElementTransformation :=
  {| Attribute := Attribute T;
     IntPoint := Some ip;
     EvalJacobian := EvalJacobian T;
     EvalAdjugateJacobian := EvalAdjugateJacobian T;
     EvalWeight := EvalWeight T |}.

Definition Jacobian (T : ElementTransformation) : DenseMatrix :=
  EvalJacobian T (IntPoint T).
Definition AdjugateJacobian (T : ElementTransformation) : DenseMatrix :=
  EvalAdjugateJacobian T (IntPoint T).
Definition Weight (T : ElementTransformation) : double :=
  EvalWeight T (IntPoint T).

(** [IntegrationPointTransformation]: the map [Transform] from the face's
    reference frame into an element's, and the transformation object
    [Transf] behind it. *)
Record IntegrationPointTransformation : Type := {
  Transf : ElementTransformation;
  Transform : IntegrationPoint -> IntegrationPoint
}.

(** [FaceElementTransformations], as the mesh hands it out for one face.
    [Elem2No] is negative on a boundary face; [Elem2] and [Loc2] are then
    never read. *)
Record FaceElementTransformations : Type := {
  Elem1No : Z;
  Elem2No : Z;
  FaceGeom : Z;
  Elem1 : ElementTransformation;
  Elem2 : ElementTransformation;
  Face : ElementTransformation;
  Loc1 : IntegrationPointTransformation;
  Loc2 : IntegrationPointTransformation
}.

(** [FT->Face->SetIntPoint(&fip)] *)
Definition Face_SetIntPoint (fip : IntegrationPoint)
    (FT : FaceElementTransformations) : FaceElementTransformations :=
  {| Elem1No := Elem1No FT; Elem2No := Elem2No FT; FaceGeom := FaceGeom FT;
     Elem1 := Elem1 FT; Elem2 := Elem2 FT;
     Face := SetIntPoint fip (Face FT);
     Loc1 := Loc1 FT; Loc2 := Loc2 FT |}.

(** [FT->Loc1.Transf.SetIntPoint(&fip)] *)
Definition Loc1_Transf_SetIntPoint (fip : IntegrationPoint)
    (FT : FaceElementTransformations) : FaceElementTransformations :=
  {| Elem1No := Elem1No FT; Elem2No := Elem2No FT; FaceGeom := FaceGeom FT;
     Elem1 := Elem1 FT; Elem2 := Elem2 FT;
     Face := Face FT;
     Loc1 := {| Transf := SetIntPoint fip (Transf (Loc1 FT));
                Transform := Transform (Loc1 FT) |};
     Loc2 := Loc2 FT |}.

(** [FT->GetElement1Transformation()] *)
Definition GetElement1Transformation (FT : FaceElementTransformations)
  : ElementTransformation := Elem1 FT.

(** The point loops of the Kelly estimator only move the current
    integration points of [FT->Face] and of [FT->Loc1.Transf];
    [with_points pf pl FT] is [FT] with those two points replaced. *)
Definition with_points (pf pl : option IntegrationPoint)
    (FT : FaceElementTransformations) : FaceElementTransformations :=
  {| Elem1No := Elem1No FT; Elem2No := Elem2No FT; FaceGeom := FaceGeom FT;
     Elem1 := Elem1 FT; Elem2 := Elem2 FT;
     Face := {| Attribute := Attribute (Face FT); IntPoint := pf;
                EvalJacobian := EvalJacobian (Face FT);
                EvalAdjugateJacobian := EvalAdjugateJacobian (Face FT);
                EvalWeight := EvalWeight (Face FT) |};
     Loc1 := {| Transf :=
                  {| Attribute := Attribute (Transf (Loc1 FT)); IntPoint := pl;
                     EvalJacobian := EvalJacobian (Transf (Loc1 FT));
                     EvalAdjugateJacobian := EvalAdjugateJacobian (Transf (Loc1 FT));
                     EvalWeight := EvalWeight (Transf (Loc1 FT)) |};
                Transform := Transform (Loc1 FT) |};
     Loc2 := Loc2 FT |}.

(** ** Mesh, finite element space, grid function (queried, never computed here) *)

Record ParMesh : Type := {
  GetNE : nat;
  GetNumFaces : nat;
  GetNSharedFaces : nat;
  Dimension : Z;
  SpaceDimension : Z;
  GetSequence : Z;
  FaceIsInterior : nat -> bool;
  (** [GetFaceInfos(f, &Inf1, &Inf2, &NCFace)] *)
  GetFaceInfos : nat -> Z * Z * Z;
  GetFaceElementTransformations : nat -> FaceElementTransformations;
  (** [GetSharedFaceTransformations(sf, true)] *)
  GetSharedFaceTransformations : nat -> FaceElementTransformations;
  (** the local face index of a shared face *)
  GetSharedFace : nat -> nat
}.

Record FiniteElementSpace : Type := {
  GetMesh : ParMesh;
  (** the mesh sequence the space was last updated for *)
  fes_sequence : Z;
  GetVDim : Z;
  GetVSize : nat;
  GetAttribute : nat -> Z;
  GetFaceOrder : nat -> Z;
  GetElementVDofs : nat -> list Z
}.

(** Modelled from the spec: FiniteElementSpace::GetNE (fem/fespace.hpp is
    not part of the sources), the element count of the space's mesh. *)
Definition FES_GetNE (fes : FiniteElementSpace) : nat := GetNE (GetMesh fes).

(** A (Par)GridFunction: its space, its true data and the face-neighbour
    data an exchange has filled in. *)
Record GridFunction : Type := {
  FESpace : FiniteElementSpace;
  data : Vector;
  face_nbr_data : Vector
}.

(** [GridFunction flux(flux_space)]: the uninitialised entries read as 0,
    every use below assigns them first. *)
Definition GridFunction_new (fes : FiniteElementSpace) : GridFunction :=
  {| FESpace := fes; data := replicate (GetVSize fes) 0%float;
     face_nbr_data := [] |}.

Definition set_data (v : Vector) (g : GridFunction) : GridFunction :=
  {| FESpace := FESpace g; data := v; face_nbr_data := face_nbr_data g |}.

(** ** ZienkiewiczZhuEstimator::ComputeEstimates (lines 17-31) *)
Module ZienkiewiczZhuEstimator.

Record t : Type := {
  current_sequence : Z;
  error_estimates : Vector;
  total_error : double;
  anisotropic : bool;
  aniso_flags : list Z;
  flux_averaging : Z;
  with_coeff : bool;
  solution : GridFunction;
  flux_space : FiniteElementSpace
}.

Section Method.

(** [FiniteElementSpace::Update(false)] *)
Variable Update : FiniteElementSpace -> FiniteElementSpace.

(** The routine [ZZErrorEstimator] of fem/gridfunc.cpp, applied to the
    estimator's integrator [*integ]: from the solution, the flux work
    field, the error vector it is handed, the flags (NULL when not
    anisotropic), the averaging mode and [with_coeff], it gives the total
    error, the error vector and the flags it leaves behind. *)
Variable ZZErrorEstimator :
  GridFunction -> GridFunction -> Vector -> option (list Z) -> Z -> bool ->
  double * Vector * option (list Z).

Definition ComputeEstimates (st : t) : outcome t :=
  let flux_space' := Update (flux_space st) in
  let flux := GridFunction_new flux_space' in
  let aniso_flags' := if anisotropic st then aniso_flags st else [] in
  let '(total, errors, flags) :=
    ZZErrorEstimator (solution st) flux (error_estimates st)
      (if anisotropic st then Some aniso_flags' else None)
      (flux_averaging st) (with_coeff st) in
  Done {| current_sequence := GetSequence (GetMesh (FESpace (solution st)));
          error_estimates := errors;
          total_error := total;
          anisotropic := anisotropic st;
          aniso_flags := default aniso_flags' flags;
          flux_averaging := flux_averaging st;
          with_coeff := with_coeff st;
          solution := solution st;
          flux_space := flux_space' |}.

End Method.
End ZienkiewiczZhuEstimator.

(** ** L2ZienkiewiczZhuEstimator::ComputeEstimates (lines 36-49) *)
Module L2ZienkiewiczZhuEstimator.

Record t : Type := {
  current_sequence : Z;
  error_estimates : Vector;
  total_error : double;
  local_norm_p : Z;
  solution : GridFunction;
  flux_space : FiniteElementSpace;
  smooth_flux_space : FiniteElementSpace
}.

(** [const double solver_tol = 1e-12;] (the binary64 nearest to it) and
    [const int solver_max_it = 200;] *)
Definition solver_tol : double := 0x1.19799812dea11p-40%float.
Definition solver_max_it : Z := 200.

Section Method.

Variable Update : FiniteElementSpace -> FiniteElementSpace.

(** The routine [L2ZZErrorEstimator] of fem/pgridfunc.cpp, applied to the
    estimator's integrator [*integ]: solution, smooth flux space, flux
    space, the error vector it is handed, the norm exponent, the solver
    tolerance and the solver iteration cap; it gives the total error and
    the error vector. *)
Variable L2ZZErrorEstimator :
  GridFunction -> FiniteElementSpace -> FiniteElementSpace -> Vector ->
  Z -> double -> Z -> double * Vector.

Definition ComputeEstimates (st : t) : outcome t :=
  let flux_space' := Update (flux_space st) in
  let smooth_flux_space' := Update (smooth_flux_space st) in
  let '(total, errors) :=
    L2ZZErrorEstimator (solution st) smooth_flux_space' flux_space'
      (error_estimates st) (local_norm_p st) solver_tol solver_max_it in
  Done {| current_sequence := GetSequence (GetMesh (FESpace (solution st)));
          error_estimates := errors;
          total_error := total;
          local_norm_p := local_norm_p st;
          solution := solution st;
          flux_space := flux_space';
          smooth_flux_space := smooth_flux_space' |}.

End Method.
End L2ZienkiewiczZhuEstimator.

(** ** LpErrorEstimator::ComputeEstimates (lines 330-345) *)
Module LpErrorEstimator.

Section Method.

(** The coefficient classes are opaque here. *)
Variables Coefficient VectorCoefficient : Type.

Record t : Type := {
  current_sequence : Z;
  error_estimates : Vector;
  local_norm_p : Z;
  coef : option Coefficient;
  vcoef : option VectorCoefficient;
  sol : GridFunction
}.

(** [GridFunction::ComputeElementLpErrors], scalar and vector overloads:
    from the field, the exponent, the coefficient and the error vector it
    is handed, the error vector it leaves. *)
Variable ComputeElementLpErrors :
  GridFunction -> Z -> Coefficient -> Vector -> Vector.
Variable ComputeElementLpErrors_v :
  GridFunction -> Z -> VectorCoefficient -> Vector -> Vector.

Definition set_estimates (errors : Vector) (seq : Z) (st : t) : t :=
  {| current_sequence := seq;
     error_estimates := errors;
     local_norm_p := local_norm_p st;
     coef := coef st;
     vcoef := vcoef st;
     sol := sol st |}.

Definition ComputeEstimates (st : t) : outcome t :=
  (* MFEM_VERIFY(coef != NULL || vcoef != NULL, ...) *)
  if bool_decide (coef st = None) && bool_decide (vcoef st = None)
  then Aborted st
  else
    let sized := SetSize (GetNE (GetMesh (FESpace (sol st)))) (error_estimates st) in
    let errors :=
      match coef st with
      | Some c => ComputeElementLpErrors (sol st) (local_norm_p st) c sized
      | None =>
          match vcoef st with
          | Some vc => ComputeElementLpErrors_v (sol st) (local_norm_p st) vc sized
          | None => sized
          end
      end in
    Done (set_estimates errors (GetSequence (GetMesh (FESpace (sol st)))) st).

End Method.
End LpErrorEstimator.

(** ** KellyErrorEstimator::ComputeEstimates (lines 51-326) *)
Module KellyErrorEstimator.

Record t : Type := {
  current_sequence : Z;
  error_estimates : Vector;
  total_error : double;
  (** the attribute filter, [Array<int> attributes] *)
  attributes : list Z;
  solution : GridFunction;
  flux_space : FiniteElementSpace;
  (** [compute_element_coefficient(pmesh, e)] *)
  compute_element_coefficient : ParMesh -> nat -> double;
  (** [compute_face_coefficient(pmesh, f, shared)] *)
  compute_face_coefficient : ParMesh -> nat -> bool -> double
}.

Definition set_flux_space (fs : FiniteElementSpace) (st : t) : t :=
  {| current_sequence := current_sequence st;
     error_estimates := error_estimates st;
     total_error := total_error st;
     attributes := attributes st;
     solution := solution st;
     flux_space := fs;
     compute_element_coefficient := compute_element_coefficient st;
     compute_face_coefficient := compute_face_coefficient st |}.

Definition set_error_estimates (errors : Vector) (st : t) : t :=
  {| current_sequence := current_sequence st;
     error_estimates := errors;
     total_error := total_error st;
     attributes := attributes st;
     solution := solution st;
     flux_space := flux_space st;
     compute_element_coefficient := compute_element_coefficient st;
     compute_face_coefficient := compute_face_coefficient st |}.

Definition set_current_sequence (seq : Z) (st : t) : t :=
  {| current_sequence := seq;
     error_estimates := error_estimates st;
     total_error := total_error st;
     attributes := attributes st;
     solution := solution st;
     flux_space := flux_space st;
     compute_element_coefficient := compute_element_coefficient st;
     compute_face_coefficient := compute_face_coefficient st |}.

Definition set_total_error (total : double) (st : t) : t :=
  {| current_sequence := current_sequence st;
     error_estimates := error_estimates st;
     total_error := total;
     attributes := attributes st;
     solution := solution st;
     flux_space := flux_space st;
     compute_element_coefficient := compute_element_coefficient st;
     compute_face_coefficient := compute_face_coefficient st |}.

(** The filter test of lines 82, 122-124 and 221-223:
    [attributes.Size() && attributes.Find(attr) == -1]. *)
Definition excluded (attributes : list Z) (attr : Z) : bool :=
  negb (Size attributes =? 0) && (Find attributes attr =? -1).

(** [attributes.Size() && (attributes.Find(a1) == -1 || attributes.Find(a2) == -1)] *)
Definition face_excluded (attributes : list Z) (FT : FaceElementTransformations)
  : bool :=
  negb (Size attributes =? 0) &&
  ((Find attributes (Attribute (Elem1 FT)) =? -1)
   || (Find attributes (Attribute (Elem2 FT)) =? -1)).

(** The convention of lines 118-120 for a face the mesh calls interior. *)
Definition isNCSlave (FT : FaceElementTransformations) (NCFace : Z) : bool :=
  (0 <=? Elem2No FT) && (0 <=? NCFace).
Definition isConforming (FT : FaceElementTransformations) (NCFace : Z) : bool :=
  (0 <=? Elem2No FT) && (NCFace =? -1).
Definition handles_face (FT : FaceElementTransformations) (NCFace : Z) : bool :=
  ((Elem1No FT <? Elem2No FT) && isConforming FT NCFace) || isNCSlave FT NCFace.

(** [handled pmesh f]: local face [f] reaches line 121, that is, the mesh
    calls it interior and the convention hands it to this loop. *)
Definition handled (pmesh : ParMesh) (f : nat) : bool :=
  FaceIsInterior pmesh f &&
  handles_face (GetFaceElementTransformations pmesh f) (GetFaceInfos pmesh f).2.

(** [integrated st f]: local face [f] reaches the integration of lines
    129-209 (handled, and not dropped by the attribute filter). *)
Definition integrated (st : t) (f : nat) : bool :=
  let pmesh := GetMesh (FESpace (solution st)) in
  handled pmesh f &&
  negb (face_excluded (attributes st) (GetFaceElementTransformations pmesh f)).

(** The ownership convention in the specification's words, from the
    adjacency and the classification of a face: a boundary face (no
    second adjacent element) is never processed; a conforming face
    ([NCFace = -1]) when the first adjacent element's index is strictly
    less than the second's; a non-conforming interior face ([NCFace >= 0])
    is the slave side of its master/slave pair and is processed. *)
Definition owns (interior : bool) (elem1 elem2 ncface : Z) : bool :=
  if negb interior || (elem2 <? 0) then false
  else if ncface =? -1 then elem1 <? elem2
  else 0 <=? ncface.

(** The jump in the specification's words: the difference of the two
    fluxes (side 1 minus side 2) dotted with the side-1 normal, times the
    quadrature weight and the face Jacobian weight. *)
Definition jump_as_specified (val1 val2 normal : Vector) (w face_weight : double)
  : double :=
  (dot (zip_with PrimFloat.sub val1 val2) normal * w * face_weight)%float.

Section Method.

(** Build flavour: MFEM_ASSERT checks only when MFEM_DEBUG is defined
    (general/error.hpp is not part of the sources). *)
Variable MFEM_DEBUG : bool.

(** [FiniteElementSpace::Update(false)] *)
Variable Update : FiniteElementSpace -> FiniteElementSpace.

(** [Vector::GetSubVector(dofs, elemvect)] on the solution's data. *)
Variable GetSubVector : Vector -> list Z -> Vector.

(** [flux_integrator->ComputeElementFlux] for element [e], given the
    solution space, the flux space and the element's solution values
    (with [with_coef = true]); it gives the element flux vector [el_f]. *)
Variable ComputeElementFlux :
  FiniteElementSpace -> FiniteElementSpace -> nat -> Vector -> Vector.

(** [ParGridFunction::GetVectorValue(elem, ip, val)] *)
Variable GetVectorValue : GridFunction -> Z -> IntegrationPoint -> Vector.

(** [ParGridFunction::ExchangeFaceNbrData()] *)
Variable ExchangeFaceNbrData : GridFunction -> GridFunction.

(** [CalcOrtho(J, n)] and [DenseMatrix::MultTranspose(x, y)] of linalg. *)
Variable CalcOrtho : DenseMatrix -> Vector.
Variable MultTranspose : DenseMatrix -> Vector -> Vector.

(** [IntegrationRules::Get(GeomType, Order)] *)
Variable IntRules_Get : Z -> Z -> IntegrationRule.

(** *** 1. Fluxes in the discontinuous space (lines 73-96) *)
Definition flux_element (st : t) (fs : FiniteElementSpace) (e : nat)
    (flux : Vector) : option Vector :=
  let xfes := FESpace (solution st) in
  let attr := GetAttribute xfes e in
  if excluded (attributes st) attr then Some flux
  else
    let xdofs := GetElementVDofs xfes e in
    let el_x := GetSubVector (data (solution st)) xdofs in
    let el_f := ComputeElementFlux xfes fs e el_x in
    let fdofs := GetElementVDofs fs e in
    AddElementVector fdofs el_f flux.

(** *** The normal at a face point (lines 145-159, 176-190, 247-261, 279-292)

    [set_loc1] tells whether the embedded branch calls
    [FT->Loc1.Transf.SetIntPoint(&fip)] first: it does at lines 154, 185
    and 256, and does not at line 288. *)
Definition face_normal (pmesh : ParMesh) (set_loc1 : bool)
    (fip : IntegrationPoint) (FT : FaceElementTransformations)
  : FaceElementTransformations * Vector :=
  let FT := Face_SetIntPoint fip FT in
  if Dimension pmesh =? SpaceDimension pmesh
  then (FT, CalcOrtho (Jacobian (Face FT)))
  else
    let FT := if set_loc1 then Loc1_Transf_SetIntPoint fip FT else FT in
    let ref_normal := CalcOrtho (Jacobian (Transf (Loc1 FT))) in
    let e1 := GetElement1Transformation FT in
    let normal := MultTranspose (AdjugateJacobian e1) ref_normal in
    (FT, Div normal (Weight e1)).

(** One iteration of the side-1 loop (lines 134-161 and 237-264): the
    value assigned to [jumps(i)]. *)
Definition side1_point (pmesh : ParMesh) (flux : GridFunction)
    (FT : FaceElementTransformations) (fip : IntegrationPoint)
  : FaceElementTransformations * double :=
  let ip := Transform (Loc1 FT) fip in
  let val := GetVectorValue flux (Elem1No FT) ip in
  let '(FT, normal) := face_normal pmesh true fip FT in
  (FT, (dot val normal * weight fip * Weight (Face FT))%float).

(** One iteration of the side-2 loop (lines 165-194 and 268-296): the
    value subtracted from [jumps(i)]. *)
Definition side2_point (pmesh : ParMesh) (flux : GridFunction) (set_loc1 : bool)
    (FT : FaceElementTransformations) (fip : IntegrationPoint)
  : FaceElementTransformations * double :=
  let ip := Transform (Loc2 FT) fip in
  let val := GetVectorValue flux (Elem2No FT) ip in
  let '(FT, normal) := face_normal pmesh set_loc1 fip FT in
  let normal := Neg normal in
  (FT, (dot val normal * weight fip * Weight (Face FT))%float).

(** [for (i < nip) jumps(i) = ...] *)
Fixpoint side1_loop (pmesh : ParMesh) (flux : GridFunction)
    (FT : FaceElementTransformations) (int_rule : IntegrationRule)
  : FaceElementTransformations * Vector :=
  match int_rule with
  | [] => (FT, [])
  | fip :: rest =>
      let '(FT, j) := side1_point pmesh flux FT fip in
      let '(FT, jumps) := side1_loop pmesh flux FT rest in
      (FT, j :: jumps)
  end.

(** [for (i < nip) jumps(i) -= ...] *)
Fixpoint side2_loop (pmesh : ParMesh) (flux : GridFunction) (set_loc1 : bool)
    (FT : FaceElementTransformations) (int_rule : IntegrationRule)
    (jumps : Vector) : FaceElementTransformations * Vector :=
  match int_rule, jumps with
  | fip :: rest, j :: jumps' =>
      let '(FT, s) := side2_point pmesh flux set_loc1 FT fip in
      let '(FT, jumps'') := side2_loop pmesh flux set_loc1 FT rest jumps' in
      (FT, (j - s)%float :: jumps'')
  | _, _ => (FT, jumps)
  end.

(** The per-point jumps of one face after both loops. *)
Definition face_jumps (pmesh : ParMesh) (flux : GridFunction) (set_loc1 : bool)
    (FT : FaceElementTransformations) (int_rule : IntegrationRule) : Vector :=
  let '(FT, jumps) := side1_loop pmesh flux FT int_rule in
  (side2_loop pmesh flux set_loc1 FT int_rule jumps).2.

(** Lines 196-202 and 298-304: [jumps(i) *= jumps(i)], then
    [h_k_face * jumps.Sum()]. *)
Definition jump_integral (h_k_face : double) (jumps : Vector) : double :=
  (h_k_face * Sum (map (fun j => j * j) jumps))%float.

(** The rule of a local face (lines 104-105) and of a shared face (lines
    228-229); the order asked for, [2 * xfes->GetFaceOrder(..)], is a
    product of [int]s. *)
Definition local_int_rule (st : t) (f : nat) : IntegrationRule :=
  let xfes := FESpace (solution st) in
  let FT := GetFaceElementTransformations (GetMesh xfes) f in
  IntRules_Get (FaceGeom FT) (int_mul 2 (GetFaceOrder xfes f)).

Definition shared_int_rule (st : t) (sf : nat) : IntegrationRule :=
  let xfes := FESpace (solution st) in
  let FT := GetSharedFaceTransformations (GetMesh xfes) sf in
  IntRules_Get (FaceGeom FT) (int_mul 2 (GetFaceOrder xfes 0)).

(** *** 2. Local interior faces (lines 100-212)

    Lines 129-209, the body run for a face that passed the convention and
    the filter: the jump integral goes to both adjacent elements. *)
Definition local_face_body (st : t) (flux : GridFunction) (f : nat)
    (errors : Vector) : option Vector :=
  let xfes := FESpace (solution st) in
  let pmesh := GetMesh xfes in
  let FT := GetFaceElementTransformations pmesh f in
  let int_rule := local_int_rule st f in
  let jumps := face_jumps pmesh flux true FT int_rule in
  let h_k_face := compute_face_coefficient st pmesh f false in
  let jump_integral := jump_integral h_k_face jumps in
  match AddAt errors (Elem1No FT) jump_integral with
  | Some errors' => AddAt errors' (Elem2No FT) jump_integral
  | None => None
  end.

(** One iteration of the loop over the local faces. *)
Definition local_face (st : t) (flux : GridFunction) (f : nat)
    (errors : Vector) : option Vector :=
  let xfes := FESpace (solution st) in
  let pmesh := GetMesh xfes in
  let FT := GetFaceElementTransformations pmesh f in
  if FaceIsInterior pmesh f then
    let '(Inf1, Inf2, NCFace) := GetFaceInfos pmesh f in
    if handles_face FT NCFace then
      if face_excluded (attributes st) FT then Some errors
      else local_face_body st flux f errors
    else Some errors
  else Some errors.

(** *** 3. Shared interior faces (lines 218-310), one iteration of the loop *)
Definition shared_face (st : t) (flux : GridFunction) (sf : nat)
    (errors : Vector) : option Vector :=
  let xfes := FESpace (solution st) in
  let pmesh := GetMesh xfes in
  let FT := GetSharedFaceTransformations pmesh sf in
  if face_excluded (attributes st) FT then Some errors
  else
    let int_rule := shared_int_rule st sf in
    let jumps := face_jumps pmesh flux false FT int_rule in
    let h_k_face := compute_face_coefficient st pmesh sf true in
    let jump_integral := jump_integral h_k_face jumps in
    AddAt errors (Elem1No FT) jump_integral.

(** *** Finalize element errors (lines 313-318), one iteration of the loop *)
Definition finalize_element (st : t) (e : nat) (errors : Vector) : Vector :=
  let pmesh := GetMesh (FESpace (solution st)) in
  let factor := compute_element_coefficient st pmesh e in
  alter (fun v => PrimFloat.sqrt (factor * v)) e errors.

Definition finalize (st : t) (errors : Vector) : Vector :=
  foldl (fun errors e => finalize_element st e errors) errors
        (seq 0 (FES_GetNE (FESpace (solution st)))).

(** The three accumulation phases in program order: the recovered flux,
    then the error sums after the local and after the shared faces. *)
Definition recover_flux (st : t) (fs : FiniteElementSpace) : option GridFunction :=
  let xfes := FESpace (solution st) in
  let flux := GridFunction_new fs in
  match for_each (flux_element st fs) (seq 0 (FES_GetNE xfes))
                 (Assign 0%float (data flux)) with
  | Some v => Some (set_data v flux)
  | None => None
  end.

Definition local_faces (st : t) (flux : GridFunction) (errors : Vector)
  : option Vector :=
  for_each (local_face st flux)
           (seq 0 (GetNumFaces (GetMesh (FESpace (solution st))))) errors.

Definition shared_faces (st : t) (flux : GridFunction) (errors : Vector)
  : option Vector :=
  for_each (shared_face st flux)
           (seq 0 (GetNSharedFaces (GetMesh (FESpace (solution st))))) errors.

(** *** Closed forms the statements below are written with *)

(** The normal of the embedded branch, pulled back through element 1: the
    reference normal of the face-to-element-1 map [loc1], taken at the
    point [at_point], through the adjugate Jacobian of element 1 and
    divided by its weight. *)
Definition pullback_normal (e1 loc1 : ElementTransformation)
    (at_point : option IntegrationPoint) : Vector :=
  Div (MultTranspose (AdjugateJacobian e1) (CalcOrtho (EvalJacobian loc1 at_point)))
      (Weight e1).

(** The value side 1 contributes at a face point, and the value side 2
    contributes when its normal is taken with [Loc1.Transf] at [at_point]. *)
Definition side1_value (flux : GridFunction) (FT : FaceElementTransformations)
    (fip : IntegrationPoint) : double :=
  (dot (GetVectorValue flux (Elem1No FT) (Transform (Loc1 FT) fip))
       (pullback_normal (Elem1 FT) (Transf (Loc1 FT)) (Some fip))
   * weight fip * EvalWeight (Face FT) (Some fip))%float.

Definition side2_value (flux : GridFunction) (FT : FaceElementTransformations)
    (at_point : option IntegrationPoint) (fip : IntegrationPoint) : double :=
  (dot (GetVectorValue flux (Elem2No FT) (Transform (Loc2 FT) fip))
       (Neg (pullback_normal (Elem1 FT) (Transf (Loc1 FT)) at_point))
   * weight fip * EvalWeight (Face FT) (Some fip))%float.

(** The state the accumulation starts from: the flux space updated and
    the error vector sized to the element count and zeroed. *)
Definition started (st : t) : t :=
  let st1 := set_flux_space (Update (flux_space st)) st in
  set_error_estimates
    (Assign 0%float (SetSize (FES_GetNE (FESpace (solution st1)))
                       (error_estimates st1))) st1.

(** Lines 64-320: everything up to the collective reduction. *)
Definition ComputeEstimates_local (st : t) : outcome t :=
  let st := set_flux_space (Update (flux_space st)) st in
  let xfes := FESpace (solution st) in
  (* MFEM_ASSERT(xfes->GetVDim() == 1, ...) *)
  if MFEM_DEBUG && negb (GetVDim xfes =? 1) then Aborted st
  else
    let st := set_error_estimates
                (Assign 0%float (SetSize (FES_GetNE xfes) (error_estimates st))) st in
    match recover_flux st (flux_space st) with
    | None => Undefined
    | Some flux =>
        match local_faces st flux (error_estimates st) with
        | None => Undefined
        | Some errors =>
            let flux := ExchangeFaceNbrData flux in
            match shared_faces st flux errors with
            | None => Undefined
            | Some errors =>
                let st := set_error_estimates (finalize st errors) st in
                Done (set_current_sequence
                        (GetSequence (GetMesh (FESpace (solution st)))) st)
            end
        end
    end.

(** Lines 323-325.  [MPI_Allreduce_SUM] is the reduction over
    [xfes->GetComm()] as this process sees it: from its own contribution
    to the value every process receives. *)
Definition ComputeEstimates (MPI_Allreduce_SUM : double -> double) (st : t)
  : outcome t :=
  match ComputeEstimates_local st with
  | Done st =>
      let process_local_error := Sum (error_estimates st) in
      Done (set_total_error (MPI_Allreduce_SUM process_local_error) st)
  | Aborted st => Aborted st
  | Undefined => Undefined
  end.

(** The processes of the communicator, one estimator each, all entering
    [ComputeEstimates]: [MPI_SUM] combines the contributions, listed by
    rank, and every process receives that value.  When a process does not
    reach the reduction, no process returns from it. *)
Definition ComputeEstimates_all (MPI_SUM : list double -> double)
    (procs : list t) : option (list t) :=
  match mapM (fun st => match ComputeEstimates_local st with
                        | Done st' => Some st'
                        | _ => None
                        end) procs with
  | Some reached =>
      let total := MPI_SUM (map (fun st => Sum (error_estimates st)) reached) in
      mapM (fun st => match ComputeEstimates (fun _ => total) st with
                      | Done st' => Some st'
                      | _ => None
                      end) procs
  | None => None
  end.

End Method.
End KellyErrorEstimator.

(** ** Conditions and closed forms for the Kelly estimator *)
Module KellyConditions.
Import KellyErrorEstimator.

Section Conditions.

Variable Update : FiniteElementSpace -> FiniteElementSpace.
Variable GetSubVector : Vector -> list Z -> Vector.
Variable ComputeElementFlux :
  FiniteElementSpace -> FiniteElementSpace -> nat -> Vector -> Vector.
Variable GetVectorValue : GridFunction -> Z -> IntegrationPoint -> Vector.
Variable CalcOrtho : DenseMatrix -> Vector.

(** The flux loop writes inside the flux vector: every element that passes
    the filter has as many flux values as degrees of freedom, all of them
    indices of the vector. *)
Definition flux_in_range (st : t) : Prop :=
  let xfes := FESpace (solution st) in
  let fs := Update (flux_space st) in
  forall e, (e < FES_GetNE xfes)%nat ->
    excluded (attributes st) (GetAttribute xfes e) = false ->
    length (GetElementVDofs fs e) =
    length (ComputeElementFlux xfes fs e
              (GetSubVector (data (solution st)) (GetElementVDofs xfes e))) /\
    Forall (fun j => 0 <= j < Z.of_nat (GetVSize fs)) (GetElementVDofs fs e).

(** The face loops write inside the error vector. *)
Definition faces_in_range (st : t) : Prop :=
  let pmesh := GetMesh (FESpace (solution st)) in
  (forall f, (f < GetNumFaces pmesh)%nat -> integrated st f = true ->
     0 <= Elem1No (GetFaceElementTransformations pmesh f) < Z.of_nat (GetNE pmesh) /\
     0 <= Elem2No (GetFaceElementTransformations pmesh f) < Z.of_nat (GetNE pmesh)) /\
  (forall sf, (sf < GetNSharedFaces pmesh)%nat ->
     face_excluded (attributes st) (GetSharedFaceTransformations pmesh sf) = false ->
     0 <= Elem1No (GetSharedFaceTransformations pmesh sf) < Z.of_nat (GetNE pmesh)).

(** Two estimator states with the same inputs: filter, solution, flux
    space and coefficients; the results of earlier calls may differ. *)
Definition same_inputs (a b : t) : Prop :=
  attributes a = attributes b /\ solution a = solution b /\
  flux_space a = flux_space b /\
  compute_element_coefficient a = compute_element_coefficient b /\
  compute_face_coefficient a = compute_face_coefficient b.

(** The two terms of a jump when the normal is the one of the face
    transformation. *)
Definition face_side1 (flux : GridFunction) (FT : FaceElementTransformations)
    (p : IntegrationPoint) : double :=
  (dot (GetVectorValue flux (Elem1No FT) (Transform (Loc1 FT) p))
       (CalcOrtho (EvalJacobian (Face FT) (Some p)))
   * weight p * EvalWeight (Face FT) (Some p))%float.

Definition face_side2 (flux : GridFunction) (FT : FaceElementTransformations)
    (p : IntegrationPoint) : double :=
  (dot (GetVectorValue flux (Elem2No FT) (Transform (Loc2 FT) p))
       (Neg (CalcOrtho (EvalJacobian (Face FT) (Some p))))
   * weight p * EvalWeight (Face FT) (Some p))%float.

End Conditions.
End KellyConditions.

(** ** A small configuration to run the methods on

    One process owning two elements (attributes 1 and 2) of a plane mesh:
    local face 0 is a boundary face, local face 1 the conforming interior
    face between elements 0 and 1, local face 2 the face shared with the
    neighbouring process (shared face 0, neighbour element 2).  The faces
    are straight segments of length [L] along the second axis; the flux
    space is piecewise constant with two components per element, and the
    flux integrator maps the element value [u] to the flux [(u, 0)]. *)
Module Fixture.

Definition constant_transformation (attr : Z) (J A : DenseMatrix) (w : double)
  : ElementTransformation :=
  {| Attribute := attr; IntPoint := None;
     EvalJacobian := fun _ => J;
     EvalAdjugateJacobian := fun _ => A;
     EvalWeight := fun _ => w |}.

Definition identity2 : DenseMatrix := [[1; 0]; [0; 1]]%float.

Definition element (attr : Z) : ElementTransformation :=
  constant_transformation attr identity2 identity2 1%float.

Definition segment (L : double) : ElementTransformation :=
  constant_transformation 0 [[0%float]; [L]] [] L.

Definition local_map : IntegrationPointTransformation :=
  {| Transf := segment 1%float; Transform := fun ip => ip |}.

Definition face_transformations (e1 e2 : Z) (a1 a2 : Z) (L : double)
  : FaceElementTransformations :=
  {| Elem1No := e1; Elem2No := e2; FaceGeom := 1;
     Elem1 := element a1; Elem2 := element a2; Face := segment L;
     Loc1 := local_map; Loc2 := local_map |}.

Definition mesh (dim : Z) (seq : Z) (L : double) : ParMesh :=
  {| GetNE := 2; GetNumFaces := 3; GetNSharedFaces := 1;
     Dimension := dim; SpaceDimension := 2; GetSequence := seq;
     FaceIsInterior := fun f => Nat.eqb f 1;
     GetFaceInfos := fun f => (0, 0, -1);
     GetFaceElementTransformations := fun f =>
       match f with
       | 1%nat => face_transformations 0 1 1 2 L
       | 2%nat => face_transformations 1 (-1) 2 0 L
       | _ => face_transformations 0 (-1) 1 0 L
       end;
     GetSharedFaceTransformations := fun sf => face_transformations 1 2 2 2 L;
     GetSharedFace := fun sf => 2%nat |}.

(** The solution space: scalar, one degree of freedom per element; the
    face orders are given per local face. *)
Definition xfes (m : ParMesh) (vdim : Z) (orders : nat -> Z) : FiniteElementSpace :=
  {| GetMesh := m; fes_sequence := GetSequence m; GetVDim := vdim; GetVSize := 2;
     GetAttribute := fun e => Z.of_nat e + 1;
     GetFaceOrder := orders;
     GetElementVDofs := fun e => [Z.of_nat e] |}.

(** The flux space, last updated for mesh sequence [seq]. *)
Definition fluxes (m : ParMesh) (seq : Z) : FiniteElementSpace :=
  {| GetMesh := m; fes_sequence := seq; GetVDim := 2; GetVSize := 4;
     GetAttribute := fun e => Z.of_nat e + 1;
     GetFaceOrder := fun _ => 0;
     GetElementVDofs := fun e => [2 * Z.of_nat e; 2 * Z.of_nat e + 1] |}.

(** [Update]: brings the space to the mesh's current sequence. *)
Definition Update (fes : FiniteElementSpace) : FiniteElementSpace :=
  {| GetMesh := GetMesh fes; fes_sequence := GetSequence (GetMesh fes);
     GetVDim := GetVDim fes; GetVSize := GetVSize fes;
     GetAttribute := GetAttribute fes; GetFaceOrder := GetFaceOrder fes;
     GetElementVDofs := GetElementVDofs fes |}.

Definition entry (v : list double) (i : nat) : double := default 0%float (v !! i).

Definition GetSubVector (v : Vector) (dofs : list Z) : Vector :=
  map (fun j => entry v (Z.to_nat j)) dofs.

Definition ComputeElementFlux (xs fs : FiniteElementSpace) (e : nat) (el_x : Vector)
  : Vector := el_x ++ [0%float].

(** Piecewise constant evaluation: local elements read the field's data,
    the neighbour's elements the exchanged data. *)
Definition GetVectorValue (g : GridFunction) (elem : Z) (ip : IntegrationPoint)
  : Vector :=
  let ne := Z.of_nat (FES_GetNE (FESpace g)) in
  let '(v, k) := if elem <? ne then (data g, Z.to_nat elem)
                 else (face_nbr_data g, Z.to_nat (elem - ne)) in
  [entry v (2 * k); entry v (2 * k + 1)].

(** The exchange delivers the neighbour's flux on its element. *)
Definition ExchangeFaceNbrData (nbr : Vector) (g : GridFunction) : GridFunction :=
  {| FESpace := FESpace g; data := data g; face_nbr_data := nbr |}.

(** The normal of a segment with tangent [(a, b)] is [(b, -a)]. *)
Definition CalcOrtho (J : DenseMatrix) : Vector :=
  match J with
  | [[a]; [b]] => [b; (- a)%float]
  | _ => []
  end.

Definition MultTranspose (A : DenseMatrix) (v : Vector) : Vector :=
  foldr (fun '(row, c) acc => zip_with (fun r s => (r * c + s)%float) row acc)
        (replicate (length v) 0%float) (zip A v).

(** Rules of [k / 2 + 1] equally weighted points at the face midpoint; a
    Gauss rule with that many points integrates degree [2 n - 1]. *)
Definition IntRules_Get (geom : Z) (k : Z) : IntegrationRule :=
  let n := Z.to_nat (k / 2 + 1) in
  replicate n {| x := 0.5; y := 0; z := 0;
                 weight := (1 / PrimFloat.of_uint63 (Uint63.of_Z (Z.of_nat n))) |}%float.
Definition Degree (r : IntegrationRule) : Z := 2 * Z.of_nat (length r) - 1.

Definition field (fes : FiniteElementSpace) (values : Vector) : GridFunction :=
  {| FESpace := fes; data := values; face_nbr_data := [] |}.

(** A Kelly estimator over the configuration. *)
Definition kelly (m : ParMesh) (vdim : Z) (orders : nat -> Z) (flux_seq : Z)
    (filter : list Z) (u : Vector) : KellyErrorEstimator.t :=
  {| KellyErrorEstimator.current_sequence := -1;
     KellyErrorEstimator.error_estimates := [];
     KellyErrorEstimator.total_error := 0%float;
     KellyErrorEstimator.attributes := filter;
     KellyErrorEstimator.solution := field (xfes m vdim orders) u;
     KellyErrorEstimator.flux_space := fluxes m flux_seq;
     KellyErrorEstimator.compute_element_coefficient := fun _ _ => 1%float;
     KellyErrorEstimator.compute_face_coefficient := fun _ _ _ => 1%float |}.

(** [ComputeEstimates] on the configuration, the neighbour's flux being
    [nbr]. *)
Definition run (debug : bool) (nbr : Vector) (allreduce : double -> double)
    (st : KellyErrorEstimator.t) : outcome KellyErrorEstimator.t :=
  KellyErrorEstimator.ComputeEstimates debug Update GetSubVector
    ComputeElementFlux GetVectorValue (ExchangeFaceNbrData nbr)
    CalcOrtho MultTranspose IntRules_Get allreduce st.

(** The state a run ends in ([st] itself when it does not return). *)
Definition final (st : KellyErrorEstimator.t) (o : outcome KellyErrorEstimator.t)
  : KellyErrorEstimator.t :=
  match o with
  | Done st' => st'
  | Aborted st' => st'
  | Undefined => st
  end.

(** The reduction of the contributions listed by rank, added up in rank
    order. *)
Definition MPI_SUM (contributions : list double) : double := Sum contributions.

Definition run_all (nbr : Vector) (procs : list KellyErrorEstimator.t)
  : option (list KellyErrorEstimator.t) :=
  KellyErrorEstimator.ComputeEstimates_all true Update GetSubVector
    ComputeElementFlux GetVectorValue (ExchangeFaceNbrData nbr)
    CalcOrtho MultTranspose IntRules_Get MPI_SUM procs.

(** *** The configurations used below *)

(** Unit faces, mesh sequence 7. *)
Definition unit_mesh : ParMesh := mesh 2 7 1%float.

(** The same faces in a mesh of dimension 1 embedded in the plane. *)
Definition embedded_mesh : ParMesh := mesh 1 7 1%float.

(** The face midpoint, the one point of the rule for order 0. *)
Definition mid : IntegrationPoint :=
  {| x := 0.5; y := 0; z := 0; weight := 1 |}%float.

(** Element values 1 and 1: the recovered flux is (1, 0) on both elements,
    continuous across the interior face. *)
Definition continuous : KellyErrorEstimator.t :=
  kelly unit_mesh 1 (fun _ => 0) 7 [] [1; 1]%float.
Definition continuous_flux : GridFunction :=
  field (fluxes unit_mesh 7) [1; 0; 1; 0]%float.

(** The same with the filter [{1}]: element 1, of attribute 2, is excluded. *)
Definition filtered : KellyErrorEstimator.t :=
  kelly unit_mesh 1 (fun _ => 0) 7 [1] [1; 1]%float.

(** The unit mesh with its interior face listed from the other side:
    element 1 is its first element and element 0 its second. *)
Definition reversed_mesh : ParMesh :=
  {| GetNE := GetNE unit_mesh; GetNumFaces := GetNumFaces unit_mesh;
     GetNSharedFaces := GetNSharedFaces unit_mesh;
     Dimension := Dimension unit_mesh; SpaceDimension := SpaceDimension unit_mesh;
     GetSequence := GetSequence unit_mesh;
     FaceIsInterior := FaceIsInterior unit_mesh;
     GetFaceInfos := GetFaceInfos unit_mesh;
     GetFaceElementTransformations := fun f =>
       match f with
       | 1%nat => face_transformations 1 0 2 1 1%float
       | _ => GetFaceElementTransformations unit_mesh f
       end;
     GetSharedFaceTransformations := GetSharedFaceTransformations unit_mesh;
     GetSharedFace := GetSharedFace unit_mesh |}.
Definition reversed : KellyErrorEstimator.t :=
  kelly reversed_mesh 1 (fun _ => 0) 7 [] [1; 1]%float.

(** Faces of length 10 and element values 2^1023 and -2^1023, both finite. *)
Definition huge : KellyErrorEstimator.t :=
  kelly (mesh 2 7 10%float) 1 (fun _ => 0) 7 [] [0x1p1023; -0x1p1023]%float.

(** Face order 1 on the local faces 0 and 1, order 2 on local face 2, the
    shared face. *)
Definition mixed_orders : KellyErrorEstimator.t :=
  kelly unit_mesh 1 (fun f => if Nat.eqb f 2 then 2 else 1) 7 [] [1; 1]%float.

(** A solution with two components and a flux space last updated for mesh
    sequence 6, the mesh being at sequence 7. *)
Definition vector_valued : KellyErrorEstimator.t :=
  kelly unit_mesh 2 (fun _ => 0) 6 [] [1; 1]%float.

(** The flux after the exchange with a neighbour holding (1, 0). *)
Definition exchanged_flux : GridFunction :=
  ExchangeFaceNbrData [1; 0]%float continuous_flux.

(** The run on the continuous configuration, as one process and as the
    first of two processes. *)
Definition continuous_final : KellyErrorEstimator.t :=
  final continuous (run true [1; 0]%float (fun a => a) continuous).
Definition two_processes : list KellyErrorEstimator.t :=
  default [] (run_all [1; 0]%float [continuous; filtered]).

(** The flux recovered on the filtered configuration. *)
Definition filtered_flux : GridFunction :=
  default continuous_flux
    (KellyErrorEstimator.recover_flux GetSubVector ComputeElementFlux filtered
       (fluxes unit_mesh 7)).

(** *** The sibling estimators over the same mesh *)
Definition ZZErrorEstimator (sol flux : GridFunction) (errors : Vector)
    (flags : option (list Z)) (avg : Z) (wc : bool)
  : double * Vector * option (list Z) :=
  (0%float, replicate (GetNE (GetMesh (FESpace sol))) 0%float, flags).

(** Answers with the solver tolerance it was called with. *)
Definition L2ZZErrorEstimator (sol : GridFunction)
    (smooth fs : FiniteElementSpace) (errors : Vector) (p : Z) (tol : double)
    (max_it : Z) : double * Vector :=
  (tol, replicate (GetNE (GetMesh (FESpace sol))) tol).

Definition ComputeElementLpErrors (sol : GridFunction) (p : Z) (c : unit)
    (errors : Vector) : Vector := map (fun _ => 1%float) errors.

Definition zz : ZienkiewiczZhuEstimator.t :=
  {| ZienkiewiczZhuEstimator.current_sequence := -1;
     ZienkiewiczZhuEstimator.error_estimates := [];
     ZienkiewiczZhuEstimator.total_error := 0%float;
     ZienkiewiczZhuEstimator.anisotropic := false;
     ZienkiewiczZhuEstimator.aniso_flags := [];
     ZienkiewiczZhuEstimator.flux_averaging := 0;
     ZienkiewiczZhuEstimator.with_coeff := false;
     ZienkiewiczZhuEstimator.solution := field (xfes unit_mesh 1 (fun _ => 0)) [1; 1]%float;
     ZienkiewiczZhuEstimator.flux_space := fluxes unit_mesh 6 |}.

Definition l2zz : L2ZienkiewiczZhuEstimator.t :=
  {| L2ZienkiewiczZhuEstimator.current_sequence := -1;
     L2ZienkiewiczZhuEstimator.error_estimates := [];
     L2ZienkiewiczZhuEstimator.total_error := 0%float;
     L2ZienkiewiczZhuEstimator.local_norm_p := 1;
     L2ZienkiewiczZhuEstimator.solution := field (xfes unit_mesh 1 (fun _ => 0)) [1; 1]%float;
     L2ZienkiewiczZhuEstimator.flux_space := fluxes unit_mesh 6;
     L2ZienkiewiczZhuEstimator.smooth_flux_space := fluxes unit_mesh 6 |}.

Definition lp (c : option unit) : LpErrorEstimator.t unit unit :=
  {| LpErrorEstimator.current_sequence := -1;
     LpErrorEstimator.error_estimates := [];
     LpErrorEstimator.local_norm_p := 2;
     LpErrorEstimator.coef := c;
     LpErrorEstimator.vcoef := None;
     LpErrorEstimator.sol := field (xfes unit_mesh 1 (fun _ => 0)) [1; 1]%float |}.

Definition zz_final : ZienkiewiczZhuEstimator.t :=
  match ZienkiewiczZhuEstimator.ComputeEstimates Update ZZErrorEstimator zz with
  | Done st => st
  | _ => zz
  end.

Definition l2zz_final : L2ZienkiewiczZhuEstimator.t :=
  match L2ZienkiewiczZhuEstimator.ComputeEstimates Update L2ZZErrorEstimator l2zz with
  | Done st => st
  | _ => l2zz
  end.

Definition lp_final : LpErrorEstimator.t unit unit :=
  match LpErrorEstimator.ComputeEstimates unit unit ComputeElementLpErrors
          ComputeElementLpErrors (lp (Some tt)) with
  | Done st => st
  | _ => lp (Some tt)
  end.

End Fixture.

(** ** More runs on the small configuration *)
Module FixtureRuns.
Import Fixture.

(** The run on the filtered configuration: its filter drops the interior
    and the shared face. *)
Definition filtered_final : KellyErrorEstimator.t :=
  final filtered (run true [1; 0]%float (fun a => a) filtered).

(** The flux recovered on the continuous configuration. *)
Definition continuous_recovered : GridFunction :=
  default continuous_flux
    (KellyErrorEstimator.recover_flux GetSubVector ComputeElementFlux continuous
       (fluxes unit_mesh 7)).

End FixtureRuns.

(** * Properties *)

(** ** Loops, vector updates and the attribute filter *)
Section Loops.
Context {A S : Type}.
Implicit Types (body : A -> S -> option S) (l : list A) (s : S).

(** A property every iteration keeps holds when the loop is through. *)
Lemma for_each_invariant (P : S -> Prop) body l s s' :
  (forall a t t', a ∈ l -> P t -> body a t = Some t' -> P t') ->
  P s -> for_each body l s = Some s' -> P s'.
Proof.
  revert s. induction l as [|a l IH]; intros s Hstep HP; simpl.
  - intros [= <-]. exact HP.
  - destruct (body a s) as [t|] eqn:Hb; [|done].
    apply IH.
    + intros b u u' Hin. apply Hstep. by right.
    + eapply Hstep; [by left | exact HP | exact Hb].
Qed.

(** Iterations that leave the state alone can be dropped from the loop. *)
Lemma for_each_filter (p : A -> bool) body l s :
  (forall a t, p a = false -> body a t = Some t) ->
  for_each body l s = for_each body (List.filter p l) s.
Proof.
  intros Hskip. revert s. induction l as [|a l IH]; intros s; simpl; [done|].
  destruct (p a) eqn:Hp; simpl.
  - destruct (body a s); [apply IH | done].
  - rewrite Hskip by done. apply IH.
Qed.

Lemma for_each_ext body body' l s :
  (forall a t, a ∈ l -> body a t = body' a t) ->
  for_each body l s = for_each body' l s.
Proof.
  revert s. induction l as [|a l IH]; intros s Hext; simpl; [done|].
  rewrite Hext by (by left). destruct (body' a s); [|done].
  apply IH. intros b u Hin. apply Hext. by right.
Qed.

End Loops.

Section VectorFacts.
Implicit Types (v : list double) (i : Z) (x : double).

Lemma AddAt_Some v i x v' :
  AddAt v i x = Some v' <->
  (0 <= i < Z.of_nat (length v)) /\
  v' = alter (fun y => (y + x)%float) (Z.to_nat i) v.
Proof.
  unfold AddAt. case_decide; split.
  - intros [= <-]. done.
  - intros [_ ->]. done.
  - done.
  - intros [? _]. done.
Qed.

Lemma AddAt_in_range v i x :
  0 <= i < Z.of_nat (length v) ->
  AddAt v i x = Some (alter (fun y => (y + x)%float) (Z.to_nat i) v).
Proof. intros Hi. by apply AddAt_Some. Qed.

Lemma AddAt_length v i x v' : AddAt v i x = Some v' -> length v' = length v.
Proof. intros [_ ->]%AddAt_Some. apply length_alter. Qed.

Lemma AddAt_lookup_ne v i x v' (j : nat) :
  AddAt v i x = Some v' -> j <> Z.to_nat i -> v' !! j = v !! j.
Proof. intros [_ ->]%AddAt_Some Hne. by apply list_lookup_alter_ne. Qed.

Lemma AddAt_lookup v i x v' :
  AddAt v i x = Some v' ->
  v' !! Z.to_nat i = (fun y => (y + x)%float) <$> v !! Z.to_nat i.
Proof.
  intros [_ ->]%AddAt_Some. rewrite list_lookup_alter. by case_decide.
Qed.

Lemma AddElementVector_length dofs el v v' :
  AddElementVector dofs el v = Some v' -> length v' = length v.
Proof.
  revert el v. induction dofs as [|j dofs IH]; intros [|x el] v; simpl; try done.
  - by intros [= ->].
  - destruct (AddAt v j x) as [w|] eqn:Hw; [|done].
    intros Hr. rewrite (IH _ _ Hr). by eapply AddAt_length.
Qed.

(** Only the listed degrees of freedom are written. *)
Lemma AddElementVector_frame dofs el v v' (k : nat) :
  AddElementVector dofs el v = Some v' ->
  Z.of_nat k ∉ dofs -> v' !! k = v !! k.
Proof.
  revert el v. induction dofs as [|j dofs IH]; intros [|x el] v; simpl; try done.
  - by intros [= ->].
  - destruct (AddAt v j x) as [w|] eqn:Hw; [|done].
    intros Hr [Hkj Hk]%not_elem_of_cons. rewrite (IH _ _ Hr) by done.
    eapply AddAt_lookup_ne; [done|].
    apply AddAt_Some in Hw as [? _]. intros ->. apply Hkj. lia.
Qed.

(** [Find] answers -1 exactly for a value that is not in the array. *)
Lemma Find_from_not_found a el i :
  0 <= i -> Find_from a el i = -1 <-> el ∉ a.
Proof.
  revert i. induction a as [|b a IH]; intros i Hi; simpl.
  - split; [intros _; apply not_elem_of_nil | done].
  - rewrite not_elem_of_cons. destruct (Z.eqb_spec b el) as [->|Hne].
    + split; [lia | intros [? _]; done].
    + rewrite IH by lia. split; [intros ?; split; congruence | intros [_ ?]; done].
Qed.

Lemma Find_not_found a el : Find a el = -1 <-> el ∉ a.
Proof. by apply Find_from_not_found. Qed.

End VectorFacts.

(** ** The square root of a binary64 number is never negative *)
Section IntFacts.

Lemma int_wrap_in_range (n : Z) : - 2 ^ 31 <= n < 2 ^ 31 -> int_wrap n = n.
Proof.
  intros Hn. unfold int_wrap. rewrite Z.mod_small by lia. lia.
Qed.

Lemma int_mul_2_exact (k : Z) : - 2 ^ 30 <= k < 2 ^ 30 -> int_mul 2 k = 2 * k.
Proof. intros Hk. unfold int_mul. apply int_wrap_in_range. lia. Qed.

Lemma int_mul_2_wrapped (k : Z) :
  2 ^ 30 <= k < 2 ^ 31 -> int_mul 2 k = 2 * k - 2 ^ 32.
Proof.
  intros Hk. unfold int_mul, int_wrap.
  replace (2 * k + 2 ^ 31) with (2 * k - 2 ^ 31 + 1 * 2 ^ 32) by lia.
  rewrite Z.mod_add by lia. rewrite Z.mod_small by lia. lia.
Qed.

End IntFacts.

Section FloatFacts.

Lemma binary_round_aux_sign prec emax mx ex lx :
  match binary_round_aux prec emax false mx ex lx with
  | S754_zero s | S754_infinity s | S754_finite s _ _ => s = false
  | S754_nan => True
  end.
Proof.
  unfold binary_round_aux.
  destruct (shr_fexp prec emax mx ex lx) as [mrs' e'].
  destruct (shr_fexp prec emax _ e' loc_Exact) as [mrs'' e''].
  destruct (shr_m mrs''); [done | | done].
  by destruct (e'' <=? emax - prec).
Qed.

Lemma SFsqrt_sign prec emax f :
  match SFsqrt prec emax f with
  | S754_zero _ => True
  | S754_infinity s | S754_finite s _ _ => s = false
  | S754_nan => True
  end.
Proof.
  destruct f as [s| [|] | | [|] m e]; simpl; try done.
  destruct (SFsqrt_core_binary prec emax (Z.pos m) e) as [[mz ez] lz].
  pose proof (binary_round_aux_sign prec emax mz ez lz) as H.
  by destruct (binary_round_aux prec emax false mz ez lz).
Qed.

(** [sqrt x] is at least 0 or it is NaN, and it is never below 0. *)
Lemma sqrt_nonneg_or_nan (a : double) :
  ((0 <=? PrimFloat.sqrt a)%float = true \/ PrimFloat.is_nan (PrimFloat.sqrt a) = true)
  /\ (PrimFloat.sqrt a <? 0)%float = false.
Proof.
  unfold PrimFloat.is_nan.
  rewrite FloatAxioms.leb_spec, FloatAxioms.ltb_spec, FloatAxioms.eqb_spec, FloatAxioms.sqrt_spec.
  change (Prim2SF 0%float) with (S754_zero false).
  pose proof (SFsqrt_sign FloatOps.prec FloatOps.emax (Prim2SF a)) as H.
  unfold SF64sqrt.
  destruct (SFsqrt FloatOps.prec FloatOps.emax (Prim2SF a)) as [s|s| |s m e];
    simpl in *; subst; auto.
Qed.

End FloatFacts.

(** ** The Kelly estimator *)
Module KellyFacts.
Import KellyErrorEstimator.

Section Facts.

Variable MFEM_DEBUG : bool.
Variable Update : FiniteElementSpace -> FiniteElementSpace.
Variable GetSubVector : Vector -> list Z -> Vector.
Variable ComputeElementFlux :
  FiniteElementSpace -> FiniteElementSpace -> nat -> Vector -> Vector.
Variable GetVectorValue : GridFunction -> Z -> IntegrationPoint -> Vector.
Variable ExchangeFaceNbrData : GridFunction -> GridFunction.
Variable CalcOrtho : DenseMatrix -> Vector.
Variable MultTranspose : DenseMatrix -> Vector -> Vector.
Variable IntRules_Get : Z -> Z -> IntegrationRule.

Local Abbreviation flux_element := (flux_element GetSubVector ComputeElementFlux).
Local Abbreviation recover_flux := (recover_flux GetSubVector ComputeElementFlux).
Local Abbreviation face_normal := (face_normal CalcOrtho MultTranspose).
Local Abbreviation side1_point := (side1_point GetVectorValue CalcOrtho MultTranspose).
Local Abbreviation side2_point := (side2_point GetVectorValue CalcOrtho MultTranspose).
Local Abbreviation side1_loop := (side1_loop GetVectorValue CalcOrtho MultTranspose).
Local Abbreviation side2_loop := (side2_loop GetVectorValue CalcOrtho MultTranspose).
Local Abbreviation face_jumps := (face_jumps GetVectorValue CalcOrtho MultTranspose).
Local Abbreviation local_int_rule := (local_int_rule IntRules_Get).
Local Abbreviation shared_int_rule := (shared_int_rule IntRules_Get).
Local Abbreviation local_face_body :=
  (local_face_body GetVectorValue CalcOrtho MultTranspose IntRules_Get).
Local Abbreviation local_face :=
  (local_face GetVectorValue CalcOrtho MultTranspose IntRules_Get).
Local Abbreviation shared_face :=
  (shared_face GetVectorValue CalcOrtho MultTranspose IntRules_Get).
Local Abbreviation local_faces :=
  (local_faces GetVectorValue CalcOrtho MultTranspose IntRules_Get).
Local Abbreviation shared_faces :=
  (shared_faces GetVectorValue CalcOrtho MultTranspose IntRules_Get).
Local Abbreviation pullback_normal := (pullback_normal CalcOrtho MultTranspose).
Local Abbreviation side1_value :=
  (side1_value GetVectorValue CalcOrtho MultTranspose).
Local Abbreviation side2_value :=
  (side2_value GetVectorValue CalcOrtho MultTranspose).
Local Abbreviation started := (started Update).
Local Abbreviation ComputeEstimates_local :=
  (ComputeEstimates_local MFEM_DEBUG Update GetSubVector ComputeElementFlux
     GetVectorValue ExchangeFaceNbrData CalcOrtho MultTranspose IntRules_Get).
Local Abbreviation ComputeEstimates :=
  (ComputeEstimates MFEM_DEBUG Update GetSubVector ComputeElementFlux
     GetVectorValue ExchangeFaceNbrData CalcOrtho MultTranspose IntRules_Get).
Local Abbreviation ComputeEstimates_all :=
  (ComputeEstimates_all MFEM_DEBUG Update GetSubVector ComputeElementFlux
     GetVectorValue ExchangeFaceNbrData CalcOrtho MultTranspose IntRules_Get).

Implicit Types (st : t) (flux : GridFunction) (errors : list double) (f e : nat).

(** *** The filter *)
Lemma excluded_spec (attrs : list Z) (a : Z) :
  excluded attrs a = true <-> attrs <> [] /\ a ∉ attrs.
Proof.
  unfold excluded, Size.
  rewrite andb_true_iff, negb_true_iff, Z.eqb_neq, Z.eqb_eq, Find_not_found.
  destruct attrs; simpl; split; intros [? ?]; split; try done; lia.
Qed.

Lemma face_excluded_spec (attrs : list Z) (FT : FaceElementTransformations) :
  face_excluded attrs FT = true <->
  attrs <> [] /\ (Attribute (Elem1 FT) ∉ attrs \/ Attribute (Elem2 FT) ∉ attrs).
Proof.
  unfold face_excluded, Size.
  rewrite andb_true_iff, orb_true_iff, negb_true_iff, Z.eqb_neq, !Z.eqb_eq,
    !Find_not_found.
  destruct attrs; simpl; split; intros [? ?]; split; try done; lia.
Qed.

(** *** The local face loop, one face at a time *)
Lemma local_face_unfold st flux f errors :
  local_face st flux f errors =
  if integrated st f then local_face_body st flux f errors else Some errors.
Proof.
  unfold local_face, integrated, handled.
  destruct (FaceIsInterior _ f); simpl; [|done].
  destruct (GetFaceInfos _ f) as [[Inf1 Inf2] NCFace]; simpl.
  destruct (handles_face _ NCFace); simpl; [|done].
  by destruct (face_excluded _ _).
Qed.

Lemma handled_owns (pmesh : ParMesh) f :
  handled pmesh f =
  owns (FaceIsInterior pmesh f)
       (Elem1No (GetFaceElementTransformations pmesh f))
       (Elem2No (GetFaceElementTransformations pmesh f))
       (GetFaceInfos pmesh f).2.
Proof.
  unfold handled, handles_face, isConforming, isNCSlave, owns.
  destruct (FaceIsInterior pmesh f); simpl; [|done].
  set (FT := GetFaceElementTransformations pmesh f).
  set (nc := (GetFaceInfos pmesh f).2).
  destruct (Z.ltb_spec (Elem2No FT) 0), (Z.leb_spec 0 (Elem2No FT)),
    (Z.eqb_spec nc (-1)), (Z.leb_spec 0 nc), (Z.ltb_spec (Elem1No FT) (Elem2No FT));
    simpl; try done; lia.
Qed.

Lemma count_occ_filter_seq (p : nat -> bool) (f n : nat) :
  count_occ Nat.eq_dec (List.filter p (seq 0 n)) f =
  if p f && (f <? n)%nat then 1%nat else 0%nat.
Proof.
  induction n as [|n IH].
  - simpl. by rewrite andb_false_r.
  - rewrite seq_S, filter_app, count_occ_app, IH. simpl.
    destruct (p n) eqn:Hpn; simpl.
    + destruct (Nat.eq_dec n f) as [->|Hne].
      * rewrite Hpn. simpl.
        destruct (Nat.ltb_spec f f), (Nat.ltb_spec f (S f)); try lia; done.
      * destruct (p f); simpl; [|done].
        destruct (Nat.ltb_spec f n), (Nat.ltb_spec f (S n)); try lia; done.
    + destruct (p f) eqn:Hpf; simpl; [|done].
      destruct (Nat.ltb_spec f n), (Nat.ltb_spec f (S n)); try lia; try done.
      assert (f = n) by lia. congruence.
Qed.

(** C2: the local face loop visits every face once and integrates it at
    most once.  A face is integrated exactly when the mesh calls it
    interior, it has a second adjacent element, the convention picks it (a
    conforming face, [NCFace = -1], when the first element index is
    strictly below the second; a non-conforming face, [NCFace >= 0], the
    slave side, always) and the attribute filter passes it; the convention
    is the ownership function written from the specification's words, and
    a boundary face is never integrated.  The loop is the sequence of
    credits of the integrated faces in index order, each adding the face
    coefficient times the sum of the squared jumps to both adjacent
    elements, and every integrated face of the mesh occurs once in that
    sequence, every other face not at all.  So an interior face is
    integrated exactly once when it is conforming with the first index
    below the second, or a slave side, and passes the filter; an interior
    face that is conforming with the first index not below the second, or
    that the filter drops, is not integrated. *)
Theorem C2_local_faces_integrated_once st flux errors :
  let pmesh := GetMesh (FESpace (solution st)) in
  let FT := GetFaceElementTransformations pmesh in
  let NCFace := fun f => (GetFaceInfos pmesh f).2 in
  let picked := List.filter (integrated st) (seq 0 (GetNumFaces pmesh)) in
  let credit := fun f (v : Vector) =>
    let J := (compute_face_coefficient st pmesh f false *
              Sum (map (fun j => j * j)
                     (face_jumps pmesh flux true (FT f) (local_int_rule st f))))%float in
    match AddAt v (Elem1No (FT f)) J with
    | Some v' => AddAt v' (Elem2No (FT f)) J
    | None => None
    end in
  (forall f,
     integrated st f = true <->
     FaceIsInterior pmesh f = true /\ 0 <= Elem2No (FT f) /\
     ((NCFace f = -1 /\ Elem1No (FT f) < Elem2No (FT f)) \/ 0 <= NCFace f) /\
     face_excluded (attributes st) (FT f) = false) /\
  (forall f,
     handled pmesh f =
     owns (FaceIsInterior pmesh f) (Elem1No (FT f)) (Elem2No (FT f)) (NCFace f)) /\
  (forall f, FaceIsInterior pmesh f = false \/ Elem2No (FT f) < 0 ->
     integrated st f = false) /\
  local_faces st flux errors = for_each credit picked errors /\
  (forall f,
     count_occ Nat.eq_dec picked f =
     if integrated st f && (f <? GetNumFaces pmesh)%nat then 1%nat else 0%nat) /\
  (forall f, (f < GetNumFaces pmesh)%nat ->
     FaceIsInterior pmesh f = true -> 0 <= Elem2No (FT f) ->
     ((NCFace f = -1 /\ Elem1No (FT f) < Elem2No (FT f)) \/ 0 <= NCFace f) ->
     face_excluded (attributes st) (FT f) = false ->
     count_occ Nat.eq_dec picked f = 1%nat) /\
  (forall f,
     FaceIsInterior pmesh f = true -> 0 <= Elem2No (FT f) ->
     (NCFace f = -1 /\ Elem2No (FT f) <= Elem1No (FT f)) \/
     face_excluded (attributes st) (FT f) = true ->
     count_occ Nat.eq_dec picked f = 0%nat).
Proof.
  intros pmesh FT NCFace picked credit.
  assert (forall f,
     integrated st f = true <->
     FaceIsInterior pmesh f = true /\ 0 <= Elem2No (FT f) /\
     ((NCFace f = -1 /\ Elem1No (FT f) < Elem2No (FT f)) \/ 0 <= NCFace f) /\
     face_excluded (attributes st) (FT f) = false) as Hiff.
  { clear MFEM_DEBUG Update GetSubVector ComputeElementFlux ExchangeFaceNbrData
      picked credit.
    intros f. unfold integrated. fold pmesh.
    rewrite andb_true_iff, negb_true_iff, handled_owns. fold (FT f) (NCFace f).
    unfold owns.
    destruct (FaceIsInterior pmesh f); simpl; [|by intuition].
    destruct (Z.ltb_spec (Elem2No (FT f)) 0), (Z.eqb_spec (NCFace f) (-1)),
      (Z.ltb_spec (Elem1No (FT f)) (Elem2No (FT f))), (Z.leb_spec 0 (NCFace f));
      intuition (try done; lia). }
  assert (forall f,
     count_occ Nat.eq_dec picked f =
     if integrated st f && (f <? GetNumFaces pmesh)%nat then 1%nat else 0%nat)
    as Hcount by (intros f; apply count_occ_filter_seq).
  split; [exact Hiff|]. split; [intros f; apply handled_owns|].
  split; [|split; [|split; [exact Hcount|split]]].
  - intros f Hb. destruct (integrated st f) eqn:Hint; [|done].
    apply Hiff in Hint as (Hi & H2 & _). destruct Hb as [Hb|Hb]; [congruence|lia].
  - unfold local_faces. fold pmesh.
    rewrite (for_each_filter (integrated st)).
    + apply for_each_ext. intros f v Hf.
      apply list_elem_of_In, filter_In in Hf as [_ Hf].
      by rewrite local_face_unfold, Hf.
    + intros f v Hf. by rewrite local_face_unfold, Hf.
  - intros f Hf Hi H2 Hconv Hex. rewrite Hcount.
    rewrite (proj2 (Hiff f)) by done.
    by destruct (Nat.ltb_spec f (GetNumFaces pmesh)); [|lia].
  - intros f Hi H2 Hno. rewrite Hcount.
    destruct (integrated st f) eqn:Hint; [|done].
    apply Hiff in Hint as (_ & _ & Hconv & Hex).
    destruct Hno as [[Hnc Hle]|Hex']; [lia | congruence].
Qed.

(** *** What one face adds to the error sums *)
Lemma local_face_body_Some st flux f errors :
  let pmesh := GetMesh (FESpace (solution st)) in
  let FT := GetFaceElementTransformations pmesh f in
  let J := jump_integral (compute_face_coefficient st pmesh f false)
             (face_jumps pmesh flux true FT (local_int_rule st f)) in
  0 <= Elem1No FT < Z.of_nat (length errors) ->
  0 <= Elem2No FT < Z.of_nat (length errors) ->
  local_face_body st flux f errors =
  Some (alter (fun v => (v + J)%float) (Z.to_nat (Elem2No FT))
          (alter (fun v => (v + J)%float) (Z.to_nat (Elem1No FT)) errors)).
Proof.
  intros pmesh FT J H1 H2. unfold local_face_body. fold pmesh FT. fold J.
  rewrite (AddAt_in_range errors) by done.
  apply AddAt_in_range. by rewrite length_alter.
Qed.

Lemma local_face_length st flux f errors errors' :
  local_face st flux f errors = Some errors' -> length errors' = length errors.
Proof.
  rewrite local_face_unfold. destruct (integrated st f); [|by intros [= ->]].
  unfold local_face_body.
  destruct (AddAt errors _ _) as [w|] eqn:Hw; [|done].
  intros Hr%AddAt_length. rewrite Hr. by eapply AddAt_length.
Qed.

Lemma shared_face_length st flux sf errors errors' :
  shared_face st flux sf errors = Some errors' -> length errors' = length errors.
Proof.
  unfold shared_face. destruct (face_excluded _ _); [by intros [= ->]|].
  apply AddAt_length.
Qed.

Lemma local_faces_length st flux errors errors' :
  local_faces st flux errors = Some errors' -> length errors' = length errors.
Proof.
  unfold local_faces.
  apply (for_each_invariant (fun v => length v = length errors)); [|done].
  intros f v v' _ Hv Hstep. rewrite <- Hv. by eapply local_face_length.
Qed.

Lemma shared_faces_length st flux errors errors' :
  shared_faces st flux errors = Some errors' -> length errors' = length errors.
Proof.
  unfold shared_faces.
  apply (for_each_invariant (fun v => length v = length errors)); [|done].
  intros f v v' _ Hv Hstep. rewrite <- Hv. by eapply shared_face_length.
Qed.

(** C3: a local face that reaches the integration adds its scalar
    contribution (the face coefficient times the sum of the squared
    per-point jumps) to the error sums of both adjacent elements and to no
    other entry; a shared face that passes the filter adds its
    contribution to the sum of its first, locally owned, element only, so
    every other entry, the remote element's included, stays as it was.
    The two statements are independent: each holds for its face whatever
    the other faces of the mesh are. *)
Theorem C3_face_contribution_credited st flux errors :
  let pmesh := GetMesh (FESpace (solution st)) in
  (forall f,
     let FT := GetFaceElementTransformations pmesh f in
     let J := jump_integral (compute_face_coefficient st pmesh f false)
                (face_jumps pmesh flux true FT (local_int_rule st f)) in
     let e1 := Z.to_nat (Elem1No FT) in
     let e2 := Z.to_nat (Elem2No FT) in
     integrated st f = true ->
     0 <= Elem1No FT < Z.of_nat (length errors) ->
     0 <= Elem2No FT < Z.of_nat (length errors) ->
     exists errors',
       local_face st flux f errors = Some errors' /\
       errors' = alter (fun v => (v + J)%float) e2
                   (alter (fun v => (v + J)%float) e1 errors) /\
       (e1 <> e2 ->
        errors' !! e1 = (fun v => (v + J)%float) <$> errors !! e1 /\
        errors' !! e2 = (fun v => (v + J)%float) <$> errors !! e2) /\
       (forall j, j <> e1 -> j <> e2 -> errors' !! j = errors !! j)) /\
  (forall sf,
     let SFT := GetSharedFaceTransformations pmesh sf in
     let SJ := jump_integral (compute_face_coefficient st pmesh sf true)
                 (face_jumps pmesh flux false SFT (shared_int_rule st sf)) in
     let s1 := Z.to_nat (Elem1No SFT) in
     face_excluded (attributes st) SFT = false ->
     0 <= Elem1No SFT < Z.of_nat (length errors) ->
     exists errors',
       shared_face st flux sf errors = Some errors' /\
       errors' = alter (fun v => (v + SJ)%float) s1 errors /\
       errors' !! s1 = (fun v => (v + SJ)%float) <$> errors !! s1 /\
       (forall j, j <> s1 -> errors' !! j = errors !! j)).
Proof.
  intros pmesh. split.
  - intros f FT J e1 e2 Hint H1 H2.
    eexists. rewrite local_face_unfold, Hint.
    split; [by apply local_face_body_Some|]. fold pmesh FT. fold J e1 e2.
    split; [done|]. split.
    + intros Hne. split.
      * rewrite list_lookup_alter_ne by done.
        rewrite list_lookup_alter. by case_decide.
      * rewrite list_lookup_alter. case_decide; [|done].
        by rewrite list_lookup_alter_ne.
    + intros j Hj1 Hj2. by rewrite !list_lookup_alter_ne.
  - intros sf SFT SJ s1 Hex Hs1.
    unfold shared_face. fold pmesh SFT. rewrite Hex. fold SJ.
    rewrite AddAt_in_range by done. eexists. split; [done|].
    fold s1. split; [done|]. split.
    + rewrite list_lookup_alter. by case_decide.
    + intros j Hj. by rewrite list_lookup_alter_ne.
Qed.

(** *** Flux recovery and the attribute filter *)
Lemma flux_element_length st fs e v v' :
  flux_element st fs e v = Some v' -> length v' = length v.
Proof.
  unfold flux_element. destruct (excluded _ _); [by intros [= ->]|].
  apply AddElementVector_length.
Qed.

Lemma recover_flux_data st fs flux :
  recover_flux st fs = Some flux ->
  FESpace flux = fs /\
  for_each (flux_element st fs) (seq 0 (FES_GetNE (FESpace (solution st))))
    (replicate (GetVSize fs) 0%float) = Some (data flux).
Proof.
  unfold recover_flux, Assign, GridFunction_new. simpl.
  rewrite length_replicate.
  destruct (for_each _ _ _) as [v|]; [|done]. by intros [= <-].
Qed.

(** C7: with a non-empty attribute filter, an element whose attribute is
    not in the set is skipped by the flux recovery (its iteration leaves
    the flux vector as it is), and in the recovered flux of a
    discontinuous space, where no element that passes the filter shares a
    degree of freedom with it, its entries still hold the initial 0; a
    local face and a shared face with an adjacent element whose attribute
    is not in the set leave every element's error sum as it is, whatever
    the attributes of the local elements and whatever the flux.  The four
    statements are independent of one another. *)
Theorem C7_attribute_filter st :
  let xfes := FESpace (solution st) in
  let pmesh := GetMesh xfes in
  (forall fs e v,
     attributes st <> [] -> GetAttribute xfes e ∉ attributes st ->
     flux_element st fs e v = Some v) /\
  (forall fs flux e,
     attributes st <> [] -> GetAttribute xfes e ∉ attributes st ->
     recover_flux st fs = Some flux ->
     (forall e' j, (e' < FES_GetNE xfes)%nat ->
        excluded (attributes st) (GetAttribute xfes e') = false ->
        j ∈ GetElementVDofs fs e' -> j ∉ GetElementVDofs fs e) ->
     forall k, Z.of_nat k ∈ GetElementVDofs fs e -> (k < GetVSize fs)%nat ->
       data flux !! k = Some 0%float) /\
  (forall work f errors,
     let FT := GetFaceElementTransformations pmesh f in
     attributes st <> [] ->
     Attribute (Elem1 FT) ∉ attributes st \/ Attribute (Elem2 FT) ∉ attributes st ->
     local_face st work f errors = Some errors) /\
  (forall work sf errors,
     let FT := GetSharedFaceTransformations pmesh sf in
     attributes st <> [] ->
     Attribute (Elem1 FT) ∉ attributes st \/ Attribute (Elem2 FT) ∉ attributes st ->
     shared_face st work sf errors = Some errors).
Proof.
  intros xfes pmesh. split; [|split; [|split]].
  - intros fs e v Hne He. unfold flux_element. fold xfes.
    by rewrite (proj2 (excluded_spec _ _)).
  - intros fs flux e Hne He Hflux Hdisc k Hk Hsize.
    apply recover_flux_data in Hflux as [_ Hloop]. fold xfes in Hloop.
    revert Hloop.
    apply (for_each_invariant
             (fun v => length v = GetVSize fs /\ v !! k = Some 0%float)).
    + intros e' v v' He' [Hlen Hv] Hstep. split.
      { rewrite <- Hlen. by eapply flux_element_length. }
      rewrite <- Hv. revert Hstep. unfold flux_element. fold xfes.
      destruct (excluded _ _) eqn:Hex; [by intros [= ->]|].
      intros Hadd. eapply AddElementVector_frame; [done|].
      intros Hin. eapply Hdisc; [|done|done|done].
      apply elem_of_seq in He'. lia.
    + split; [apply length_replicate|]. by apply lookup_replicate_2.
  - intros work f errors FT Hne Hattr. rewrite local_face_unfold.
    unfold integrated. fold xfes pmesh FT.
    rewrite (proj2 (face_excluded_spec _ _)) by done.
    by rewrite andb_false_r.
  - intros work sf errors FT Hne Hattr. unfold shared_face. fold xfes pmesh FT.
    by rewrite (proj2 (face_excluded_spec _ _)).
Qed.

(** *** Finalization *)
Lemma finalize_S st errors (n : nat) :
  foldl (fun errors e => finalize_element st e errors) errors (seq 0 (S n)) =
  alter (fun v => PrimFloat.sqrt
                    (compute_element_coefficient st
                       (GetMesh (FESpace (solution st))) n * v)) n
        (foldl (fun errors e => finalize_element st e errors) errors (seq 0 n)).
Proof. by rewrite seq_S, foldl_app. Qed.

Lemma finalize_lookup st errors e :
  let pmesh := GetMesh (FESpace (solution st)) in
  finalize st errors !! e =
  if (e <? FES_GetNE (FESpace (solution st)))%nat
  then (fun v => PrimFloat.sqrt (compute_element_coefficient st pmesh e * v))
         <$> errors !! e
  else errors !! e.
Proof.
  intros pmesh. unfold finalize.
  induction (FES_GetNE (FESpace (solution st))) as [|n IH].
  - done.
  - rewrite finalize_S. fold pmesh.
    destruct (Nat.eq_dec n e) as [->|Hne].
    + rewrite list_lookup_alter, decide_True by done. rewrite IH.
      destruct (Nat.ltb_spec e e), (Nat.ltb_spec e (S e)); try lia. done.
    + rewrite list_lookup_alter_ne by done. rewrite IH.
      destruct (Nat.ltb_spec e n), (Nat.ltb_spec e (S n)); try lia; done.
Qed.

Lemma finalize_length st errors : length (finalize st errors) = length errors.
Proof.
  unfold finalize. induction (FES_GetNE (FESpace (solution st))) as [|n IH].
  - done.
  - by rewrite finalize_S, length_alter.
Qed.

(** *** A call that returns *)

Lemma started_estimates st :
  error_estimates (started st) =
  replicate (FES_GetNE (FESpace (solution st))) 0%float.
Proof.
  unfold started, Assign, SetSize. simpl. by rewrite length_resize.
Qed.

Lemma ComputeEstimates_local_Done st st' :
  ComputeEstimates_local st = Done st' <->
  (MFEM_DEBUG && negb (GetVDim (FESpace (solution st)) =? 1) = false) /\
  exists flux errors sums,
    recover_flux (started st) (flux_space (started st)) = Some flux /\
    local_faces (started st) flux (error_estimates (started st)) = Some errors /\
    shared_faces (started st) (ExchangeFaceNbrData flux) errors = Some sums /\
    st' = set_current_sequence
            (GetSequence (GetMesh (FESpace (solution st))))
            (set_error_estimates (finalize (started st) sums) (started st)).
Proof.
  unfold KellyErrorEstimator.ComputeEstimates_local. fold (started st).
  change (solution (set_flux_space _ st)) with (solution st).
  destruct (MFEM_DEBUG && _).
  { split; [done | by intros [? _]]. }
  destruct (recover_flux _ _) as [flux|] eqn:Hflux.
  2:{ split; [done | by intros [_ (? & ? & ? & ? & _)]]. }
  destruct (local_faces _ flux _) as [errors|] eqn:Hlocal.
  2:{ split; [done | intros [_ (? & ? & ? & [= <-] & ? & _)]; congruence]. }
  destruct (shared_faces _ _ errors) as [sums|] eqn:Hshared.
  2:{ split; [done | intros [_ (? & ? & ? & [= <-] & Hl & ? & _)]].
      rewrite Hlocal in Hl. injection Hl as <-. congruence. }
  split.
  - intros [= <-]. split; [done|]. by eexists _, _, _.
  - intros [_ (? & ? & ? & [= <-] & Hl & Hs & ->)].
    rewrite Hlocal in Hl. injection Hl as <-.
    rewrite Hshared in Hs. by injection Hs as <-.
Qed.

Lemma ComputeEstimates_Done allreduce st st' :
  ComputeEstimates allreduce st = Done st' <->
  exists st1,
    ComputeEstimates_local st = Done st1 /\
    st' = set_total_error (allreduce (Sum (error_estimates st1))) st1.
Proof.
  unfold KellyErrorEstimator.ComputeEstimates.
  destruct (ComputeEstimates_local st) as [st1| |]; split;
    try done; try (by intros (? & ? & _)).
  - intros [= <-]. by eexists.
  - by intros (? & [= <-] & ->).
Qed.

Lemma ComputeEstimates_Done_length allreduce st st' :
  ComputeEstimates allreduce st = Done st' ->
  length (error_estimates st') = FES_GetNE (FESpace (solution st)) /\
  current_sequence st' = GetSequence (GetMesh (FESpace (solution st))) /\
  solution st' = solution st.
Proof.
  intros (st1 & Hlocal & ->)%ComputeEstimates_Done.
  apply ComputeEstimates_local_Done in Hlocal
    as (_ & flux & errors & sums & _ & Hl & Hs & ->).
  simpl. rewrite finalize_length.
  apply shared_faces_length in Hs. apply local_faces_length in Hl.
  rewrite Hs, Hl, started_estimates. by rewrite length_replicate.
Qed.

(** Every process of a collective run receives the same total, the
    reduction of the processes' local sums. *)
Lemma ComputeEstimates_all_Some MPI_SUM (procs finals : list t) :
  ComputeEstimates_all MPI_SUM procs = Some finals ->
  exists reached,
    Forall2 (fun st st1 => ComputeEstimates_local st = Done st1) procs reached /\
    finals = map (set_total_error
                    (MPI_SUM (map (fun st => Sum (error_estimates st)) reached)))
                 reached.
Proof.
  unfold KellyErrorEstimator.ComputeEstimates_all.
  destruct (mapM _ procs) as [reached|] eqn:Hreached; [|done].
  set (total := MPI_SUM _). intros Hfinals. exists reached.
  apply mapM_Some in Hreached. apply mapM_Some in Hfinals.
  split.
  - clear -Hreached.
    induction Hreached as [|st st1 procs reached Hst _ IH]; constructor; [|done].
    destruct (ComputeEstimates_local st); congruence.
  - fold total. clearbody total. clear -Hreached Hfinals. revert finals Hfinals.
    induction Hreached as [|st st1 procs reached Hst _ IH]; intros finals Hfinals.
    + by inversion Hfinals.
    + inversion Hfinals as [|? st' ? finals' Hst' Hrest]; subst. simpl.
      rewrite <- (IH _ Hrest). f_equal.
      unfold KellyErrorEstimator.ComputeEstimates in Hst'.
      destruct (ComputeEstimates_local st); try done. congruence.
Qed.

(** C4: after the face accumulation every local element's
    estimate is the square root of its element coefficient times its
    accumulated sum; such a value is at least 0 or NaN and never below 0;
    the square root is taken per element before the reduction, and the
    total every process holds is the reduction, over the processes, of
    each process's plain sum of its finalized element values. *)
Theorem C4_finalized_estimates allreduce MPI_SUM st st' (procs finals : list t) :
  let pmesh := GetMesh (FESpace (solution st)) in
  let ne := FES_GetNE (FESpace (solution st)) in
  ComputeEstimates allreduce st = Done st' ->
  ComputeEstimates_all MPI_SUM procs = Some finals ->
  (exists flux errors sums,
     recover_flux (started st) (flux_space (started st)) = Some flux /\
     local_faces (started st) flux (replicate ne 0%float) = Some errors /\
     shared_faces (started st) (ExchangeFaceNbrData flux) errors = Some sums /\
     length sums = ne /\ length (error_estimates st') = ne /\
     forall e, (e < ne)%nat ->
       exists a, sums !! e = Some a /\
         error_estimates st' !! e =
         Some (PrimFloat.sqrt (compute_element_coefficient st pmesh e * a))) /\
  (forall e v, error_estimates st' !! e = Some v ->
     ((0 <=? v)%float = true \/ PrimFloat.is_nan v = true) /\
     (v <? 0)%float = false) /\
  total_error st' = allreduce (Sum (error_estimates st')) /\
  length finals = length procs /\
  (forall r, r ∈ finals ->
     total_error r = MPI_SUM (map (fun q => Sum (error_estimates q)) finals)).
Proof.
  intros pmesh ne Hdone Hall.
  pose proof Hdone as (st1 & Hlocal & Hst')%ComputeEstimates_Done.
  apply ComputeEstimates_local_Done in Hlocal
    as (_ & flux & errors & sums & Hflux & Hl & Hs & Hst1).
  rewrite started_estimates in Hl. fold ne in Hl.
  assert (length sums = ne) as Hlen.
  { apply shared_faces_length in Hs. apply local_faces_length in Hl.
    rewrite Hs, Hl. apply length_replicate. }
  assert (forall e, error_estimates st' !! e = finalize (started st) sums !! e)
    as Hfinal by (by subst).
  assert (forall e, (e < ne)%nat ->
            exists a, sums !! e = Some a /\
              error_estimates st' !! e =
              Some (PrimFloat.sqrt (compute_element_coefficient st pmesh e * a)))
    as Hroot.
  { intros e He. destruct (lookup_lt_is_Some_2 sums e) as [a Ha]; [lia|].
    exists a. split; [done|]. rewrite Hfinal, finalize_lookup.
    change (solution (started st)) with (solution st). fold ne.
    destruct (Nat.ltb_spec e ne); [|lia]. by rewrite Ha. }
  destruct (ComputeEstimates_Done_length _ _ _ Hdone) as [Hn _].
  split; [|split; [|split; [|split]]].
  - exists flux, errors, sums. repeat split; done.
  - intros e v Hv.
    destruct (Hroot e) as (a & _ & Ha).
    { apply lookup_lt_Some in Hv. by rewrite Hn in Hv. }
    assert (v = PrimFloat.sqrt (compute_element_coefficient st pmesh e * a))
      as -> by congruence.
    apply sqrt_nonneg_or_nan.
  - by subst.
  - apply ComputeEstimates_all_Some in Hall as (reached & Hr & ->).
    rewrite length_map. symmetry. by eapply Forall2_length.
  - intros r Hr. apply ComputeEstimates_all_Some in Hall as (reached & _ & ->).
    apply list_elem_of_fmap in Hr as (q & -> & _). simpl.
    f_equal. rewrite map_map. done.
Qed.

(** *** The transformation state along the point loops *)
Lemma with_points_current FT :
  with_points (IntPoint (Face FT)) (IntPoint (Transf (Loc1 FT))) FT = FT.
Proof. by destruct FT as [? ? ? ? ? [] [[] ?] ?]. Qed.

Lemma face_normal_embedded (pmesh : ParMesh) (set_loc1 : bool) fip pf pl FT :
  Dimension pmesh <> SpaceDimension pmesh ->
  face_normal pmesh set_loc1 fip (with_points pf pl FT) =
  (with_points (Some fip) (if set_loc1 then Some fip else pl) FT,
   pullback_normal (Elem1 FT) (Transf (Loc1 FT))
     (if set_loc1 then Some fip else pl)).
Proof.
  intros Hdim. unfold KellyErrorEstimator.face_normal.
  destruct (Z.eqb_spec (Dimension pmesh) (SpaceDimension pmesh)); [done|].
  by destruct set_loc1.
Qed.

Lemma side1_point_embedded (pmesh : ParMesh) flux fip pf pl FT :
  Dimension pmesh <> SpaceDimension pmesh ->
  side1_point pmesh flux (with_points pf pl FT) fip =
  (with_points (Some fip) (Some fip) FT, side1_value flux FT fip).
Proof.
  intros Hdim. unfold KellyErrorEstimator.side1_point.
  by rewrite (face_normal_embedded pmesh true).
Qed.

Lemma side2_point_embedded (pmesh : ParMesh) flux (set_loc1 : bool) fip pf pl FT :
  Dimension pmesh <> SpaceDimension pmesh ->
  side2_point pmesh flux set_loc1 (with_points pf pl FT) fip =
  (with_points (Some fip) (if set_loc1 then Some fip else pl) FT,
   side2_value flux FT (if set_loc1 then Some fip else pl) fip).
Proof.
  intros Hdim. unfold KellyErrorEstimator.side2_point.
  by rewrite face_normal_embedded.
Qed.

Lemma side1_loop_embedded (pmesh : ParMesh) flux rule pf pl FT :
  Dimension pmesh <> SpaceDimension pmesh ->
  side1_loop pmesh flux (with_points pf pl FT) rule =
  (with_points (default pf (Some <$> list.last rule)) (default pl (Some <$> list.last rule)) FT,
   map (side1_value flux FT) rule).
Proof.
  intros Hdim. revert pf pl.
  induction rule as [|fip rule IH]; intros pf pl; simpl; [done|].
  rewrite side1_point_embedded, IH by done.
  rewrite (last_cons fip rule). by destruct (list.last rule).
Qed.

(** With [set_loc1 = false] the side-2 loop never moves the point of
    [Loc1.Transf]: every iteration reads the Jacobian at the point [pl]
    the loop started with. *)
Lemma side2_loop_shared_embedded (pmesh : ParMesh) flux rule jumps pf pl FT :
  Dimension pmesh <> SpaceDimension pmesh ->
  length jumps = length rule ->
  (side2_loop pmesh flux false (with_points pf pl FT) rule jumps).2 =
  zip_with (fun j fip => (j - side2_value flux FT pl fip)%float) jumps rule.
Proof.
  intros Hdim. revert jumps pf.
  induction rule as [|fip rule IH]; intros [|j jumps] pf Hlen; simpl in *;
    try done.
  rewrite (side2_point_embedded pmesh flux false) by done.
  specialize (IH jumps (Some fip) ltac:(lia)).
  destruct (side2_loop _ _ _ _ _ _) as [FT' jumps']. simpl in *. by rewrite IH.
Qed.

Lemma side2_loop_local_embedded (pmesh : ParMesh) flux rule jumps pf pl FT :
  Dimension pmesh <> SpaceDimension pmesh ->
  length jumps = length rule ->
  (side2_loop pmesh flux true (with_points pf pl FT) rule jumps).2 =
  zip_with (fun j fip => (j - side2_value flux FT (Some fip) fip)%float) jumps rule.
Proof.
  intros Hdim. revert jumps pf pl.
  induction rule as [|fip rule IH]; intros [|j jumps] pf pl Hlen; simpl in *;
    try done.
  rewrite (side2_point_embedded pmesh flux true) by done.
  specialize (IH jumps (Some fip) (Some fip) ltac:(lia)).
  destruct (side2_loop _ _ _ _ _ _) as [FT' jumps']. simpl in *. by rewrite IH.
Qed.

Lemma zip_with_map_same {A B C} (g : B -> A -> C) (h : A -> B) (l : list A) :
  zip_with g (map h l) l = map (fun a => g (h a) a) l.
Proof. induction l as [|a l IH]; simpl; [done | by rewrite IH]. Qed.

(** C9: in the embedded-mesh branch (mesh dimension different from, that
    is below, the space dimension) the normal used for side 2 is, in the
    local and in the shared pass, the negated pull-back of a reference
    normal through element 1's face-to-element map [Loc1.Transf] and
    element 1's adjugate Jacobian and weight; no transformation of
    element 2 enters it.  In the local pass the Jacobian of [Loc1.Transf]
    is taken at the current face point; in the shared pass the point of
    [Loc1.Transf] is not set first, so the Jacobian is the one at the point
    the transformation already holds, which over the whole shared face is
    the last point of the rule, left by the side-1 loop. *)
Theorem C9_side2_normal_through_element1 (pmesh : ParMesh) flux FT fip rule :
  Dimension pmesh <> SpaceDimension pmesh ->
  let e1 := Elem1 FT in
  let loc1 := Transf (Loc1 FT) in
  Neg (face_normal pmesh true fip FT).2 = Neg (pullback_normal e1 loc1 (Some fip)) /\
  Neg (face_normal pmesh false fip FT).2 = Neg (pullback_normal e1 loc1 (IntPoint loc1)) /\
  IntPoint (Transf (Loc1 (face_normal pmesh false fip FT).1)) = IntPoint loc1 /\
  (side2_point pmesh flux true FT fip).2 = side2_value flux FT (Some fip) fip /\
  (side2_point pmesh flux false FT fip).2 = side2_value flux FT (IntPoint loc1) fip /\
  face_jumps pmesh flux true FT rule =
    map (fun p => (side1_value flux FT p - side2_value flux FT (Some p) p)%float) rule /\
  face_jumps pmesh flux false FT rule =
    map (fun p => (side1_value flux FT p
                   - side2_value flux FT (list.last rule) p)%float) rule.
Proof.
  intros Hdim e1 loc1.
  pose proof (with_points_current FT) as Hcur.
  assert (forall b,
            face_normal pmesh b fip FT =
            (with_points (Some fip) (if b then Some fip else IntPoint loc1) FT,
             pullback_normal e1 loc1 (if b then Some fip else IntPoint loc1)))
    as Hnormal.
  { intros b. rewrite <- Hcur at 1. by apply face_normal_embedded. }
  assert (forall b,
            side2_point pmesh flux b FT fip =
            (with_points (Some fip) (if b then Some fip else IntPoint loc1) FT,
             side2_value flux FT (if b then Some fip else IntPoint loc1) fip))
    as Hside2.
  { intros b. rewrite <- Hcur at 1. by apply side2_point_embedded. }
  assert (side1_loop pmesh flux FT rule =
          (with_points (default (IntPoint (Face FT)) (Some <$> list.last rule))
             (default (IntPoint loc1) (Some <$> list.last rule)) FT,
           map (side1_value flux FT) rule)) as Hside1.
  { rewrite <- Hcur at 1. by apply side1_loop_embedded. }
  rewrite !Hnormal, !Hside2. simpl.
  repeat split; try done.
  - unfold KellyErrorEstimator.face_jumps. rewrite Hside1.
    rewrite side2_loop_local_embedded by (done || by rewrite length_map).
    apply zip_with_map_same.
  - unfold KellyErrorEstimator.face_jumps. rewrite Hside1.
    rewrite side2_loop_shared_embedded by (done || by rewrite length_map).
    rewrite zip_with_map_same.
    destruct rule as [|p rule]; [done|].
    by destruct (list.last (p :: rule)) eqn:Hlast; [|apply last_None in Hlast].
Qed.

(** *** The scalar-only check *)
Lemma ComputeEstimates_vector_valued allreduce st :
  MFEM_DEBUG = true ->
  GetVDim (FESpace (solution st)) <> 1 ->
  ComputeEstimates allreduce st =
  Aborted (set_flux_space (Update (flux_space st)) st).
Proof.
  intros Hdebug Hvdim.
  unfold KellyErrorEstimator.ComputeEstimates,
    KellyErrorEstimator.ComputeEstimates_local.
  change (solution (set_flux_space _ st)) with (solution st).
  rewrite Hdebug. by destruct (Z.eqb_spec (GetVDim (FESpace (solution st))) 1).
Qed.

(** *** The integration rules *)

(** The polynomial degree a rule integrates exactly; [IntegrationRules::Get]
    answers a request for order [k] with a rule of degree at least [k]. *)
Variable Degree : IntegrationRule -> Z.
Hypothesis Get_degree : forall geom k, k <= Degree (IntRules_Get geom k).

(** C6: the rule of a face is requested with the [int]
    product of 2 and an interpolation order: the order of that face for a
    local face, the order of local face 0 for every shared face, a query on
    the local solution space alone.  For orders in [-2^30 .. 2^30 - 1] the
    product is exact; then the rule of a local face has degree at least
    twice that face's order, and the rule of a shared face degree at least
    twice the order of face 0, hence at least twice the shared face's own
    order whenever that order does not exceed the order of face 0.  From
    order 2^30 on the product wraps and the request is [2 * order - 2^32]. *)
Theorem C6_rule_degree st f sf :
  let xfes := FESpace (solution st) in
  let pmesh := GetMesh xfes in
  let order := GetFaceOrder xfes in
  local_int_rule st f =
    IntRules_Get (FaceGeom (GetFaceElementTransformations pmesh f))
                 (int_mul 2 (order f)) /\
  shared_int_rule st sf =
    IntRules_Get (FaceGeom (GetSharedFaceTransformations pmesh sf))
                 (int_mul 2 (order 0%nat)) /\
  (- 2 ^ 30 <= order f < 2 ^ 30 ->
   int_mul 2 (order f) = 2 * order f /\
   2 * order f <= Degree (local_int_rule st f)) /\
  (- 2 ^ 30 <= order 0%nat < 2 ^ 30 ->
   int_mul 2 (order 0%nat) = 2 * order 0%nat /\
   2 * order 0%nat <= Degree (shared_int_rule st sf) /\
   (order (GetSharedFace pmesh sf) <= order 0%nat ->
    2 * order (GetSharedFace pmesh sf) <= Degree (shared_int_rule st sf))) /\
  (forall k, 2 ^ 30 <= k < 2 ^ 31 -> int_mul 2 k = 2 * k - 2 ^ 32).
Proof.
  intros xfes pmesh order.
  unfold KellyErrorEstimator.local_int_rule, KellyErrorEstimator.shared_int_rule.
  fold xfes pmesh. fold order.
  split; [done|]. split; [done|]. split; [|split].
  - intros Hf. rewrite int_mul_2_exact by done. split; [done | apply Get_degree].
  - intros H0. rewrite int_mul_2_exact by done. split; [done|].
    split; [apply Get_degree|].
    intros Hle. etrans; [|apply Get_degree]. lia.
  - apply int_mul_2_wrapped.
Qed.

End Facts.
End KellyFacts.

(** ** The estimator family *)
Module FamilyFacts.

Section Facts.

Variable Update : FiniteElementSpace -> FiniteElementSpace.

(** Zienkiewicz-Zhu *)
Variable ZZErrorEstimator :
  GridFunction -> GridFunction -> Vector -> option (list Z) -> Z -> bool ->
  double * Vector * option (list Z).

(** L2 Zienkiewicz-Zhu *)
Variable L2ZZErrorEstimator :
  GridFunction -> FiniteElementSpace -> FiniteElementSpace -> Vector ->
  Z -> double -> Z -> double * Vector.

(** Lp *)
Variables Coefficient VectorCoefficient : Type.
Variable ComputeElementLpErrors :
  GridFunction -> Z -> Coefficient -> Vector -> Vector.
Variable ComputeElementLpErrors_v :
  GridFunction -> Z -> VectorCoefficient -> Vector -> Vector.

(** Kelly *)
Variable MFEM_DEBUG : bool.
Variable GetSubVector : Vector -> list Z -> Vector.
Variable ComputeElementFlux :
  FiniteElementSpace -> FiniteElementSpace -> nat -> Vector -> Vector.
Variable GetVectorValue : GridFunction -> Z -> IntegrationPoint -> Vector.
Variable ExchangeFaceNbrData : GridFunction -> GridFunction.
Variable CalcOrtho : DenseMatrix -> Vector.
Variable MultTranspose : DenseMatrix -> Vector -> Vector.
Variable IntRules_Get : Z -> Z -> IntegrationRule.
Variable MPI_Allreduce_SUM : double -> double.

Local Abbreviation ZZ_ComputeEstimates :=
  (ZienkiewiczZhuEstimator.ComputeEstimates Update ZZErrorEstimator).
Local Abbreviation L2ZZ_ComputeEstimates :=
  (L2ZienkiewiczZhuEstimator.ComputeEstimates Update L2ZZErrorEstimator).
Local Abbreviation Lp_ComputeEstimates :=
  (LpErrorEstimator.ComputeEstimates Coefficient VectorCoefficient
     ComputeElementLpErrors ComputeElementLpErrors_v).
Local Abbreviation Kelly_ComputeEstimates debug :=
  (KellyErrorEstimator.ComputeEstimates debug Update GetSubVector
     ComputeElementFlux GetVectorValue ExchangeFaceNbrData CalcOrtho
     MultTranspose IntRules_Get MPI_Allreduce_SUM).

(** The output shape the external routines share: one entry per element
    of the solution's mesh; the Lp routine fills the vector it is handed. *)
Hypothesis ZZErrorEstimator_size : forall sol flux errors flags avg wc,
  length (ZZErrorEstimator sol flux errors flags avg wc).1.2 =
  GetNE (GetMesh (FESpace sol)).
Hypothesis L2ZZErrorEstimator_size : forall sol smooth fs errors p tol it,
  length (L2ZZErrorEstimator sol smooth fs errors p tol it).2 =
  GetNE (GetMesh (FESpace sol)).
Hypothesis ComputeElementLpErrors_size : forall sol p c errors,
  length (ComputeElementLpErrors sol p c errors) = length errors.
Hypothesis ComputeElementLpErrors_v_size : forall sol p c errors,
  length (ComputeElementLpErrors_v sol p c errors) = length errors.

(** C5: for each of the four estimators, a call of [ComputeEstimates] that
    returns leaves the cached sequence number equal to the sequence number
    of the solution's mesh and the error vector with one entry per local
    element of that mesh. *)
Theorem C5_cache_contract
    (zz zz' : ZienkiewiczZhuEstimator.t)
    (l2 l2' : L2ZienkiewiczZhuEstimator.t)
    (lp lp' : LpErrorEstimator.t Coefficient VectorCoefficient)
    (k k' : KellyErrorEstimator.t) :
  ZZ_ComputeEstimates zz = Done zz' ->
  L2ZZ_ComputeEstimates l2 = Done l2' ->
  Lp_ComputeEstimates lp = Done lp' ->
  Kelly_ComputeEstimates MFEM_DEBUG k = Done k' ->
  (ZienkiewiczZhuEstimator.current_sequence zz' =
     GetSequence (GetMesh (FESpace (ZienkiewiczZhuEstimator.solution zz'))) /\
   length (ZienkiewiczZhuEstimator.error_estimates zz') =
     GetNE (GetMesh (FESpace (ZienkiewiczZhuEstimator.solution zz')))) /\
  (L2ZienkiewiczZhuEstimator.current_sequence l2' =
     GetSequence (GetMesh (FESpace (L2ZienkiewiczZhuEstimator.solution l2'))) /\
   length (L2ZienkiewiczZhuEstimator.error_estimates l2') =
     GetNE (GetMesh (FESpace (L2ZienkiewiczZhuEstimator.solution l2')))) /\
  (LpErrorEstimator.current_sequence _ _ lp' =
     GetSequence (GetMesh (FESpace (LpErrorEstimator.sol _ _ lp'))) /\
   length (LpErrorEstimator.error_estimates _ _ lp') =
     GetNE (GetMesh (FESpace (LpErrorEstimator.sol _ _ lp')))) /\
  (KellyErrorEstimator.current_sequence k' =
     GetSequence (GetMesh (FESpace (KellyErrorEstimator.solution k'))) /\
   length (KellyErrorEstimator.error_estimates k') =
     GetNE (GetMesh (FESpace (KellyErrorEstimator.solution k')))).
Proof.
  intros Hzz Hl2 Hlp Hk. repeat split.
  - revert Hzz. unfold ZienkiewiczZhuEstimator.ComputeEstimates.
    destruct (ZZErrorEstimator _ _ _ _ _ _) as [[total errors] flags].
    by intros [= <-].
  - revert Hzz. unfold ZienkiewiczZhuEstimator.ComputeEstimates.
    pose proof (ZZErrorEstimator_size (ZienkiewiczZhuEstimator.solution zz)) as Hsize.
    match goal with |- context [ZZErrorEstimator ?s ?f ?e ?fl ?a ?w] =>
      specialize (Hsize f e fl a w);
      destruct (ZZErrorEstimator s f e fl a w) as [[total errors] flags] end.
    by intros [= <-].
  - revert Hl2. unfold L2ZienkiewiczZhuEstimator.ComputeEstimates.
    destruct (L2ZZErrorEstimator _ _ _ _ _ _ _) as [total errors].
    by intros [= <-].
  - revert Hl2. unfold L2ZienkiewiczZhuEstimator.ComputeEstimates.
    pose proof (L2ZZErrorEstimator_size (L2ZienkiewiczZhuEstimator.solution l2))
      as Hsize.
    match goal with |- context [L2ZZErrorEstimator ?s ?sm ?f ?e ?p ?t ?i] =>
      specialize (Hsize sm f e p t i);
      destruct (L2ZZErrorEstimator s sm f e p t i) as [total errors] end.
    by intros [= <-].
  - revert Hlp. unfold LpErrorEstimator.ComputeEstimates.
    destruct (_ && _); [done|]. by intros [= <-].
  - revert Hlp. unfold LpErrorEstimator.ComputeEstimates.
    destruct (_ && _); [done|]. intros [= <-]. simpl.
    destruct (LpErrorEstimator.coef _ _ lp) as [c|];
      [|destruct (LpErrorEstimator.vcoef _ _ lp) as [vc|]];
      rewrite ?ComputeElementLpErrors_size, ?ComputeElementLpErrors_v_size;
      apply length_resize.
  - apply KellyFacts.ComputeEstimates_Done_length in Hk as (_ & -> & ->). done.
  - apply KellyFacts.ComputeEstimates_Done_length in Hk as (-> & _ & ->). done.
Qed.

(** C8: the Lp estimator with neither coefficient set fails
    with its state untouched.  The Kelly estimator built with MFEM_DEBUG
    fails on a solution whose vdim is not 1 at the scalar-only check, after
    [flux_space->Update(false)] has run: the state it fails in is the one
    it was called in with the flux space updated, its error vector, total
    error, cached sequence number and attribute filter being untouched. *)
Theorem C8_precondition_failures
    (lp : LpErrorEstimator.t Coefficient VectorCoefficient)
    (k : KellyErrorEstimator.t) :
  LpErrorEstimator.coef _ _ lp = None ->
  LpErrorEstimator.vcoef _ _ lp = None ->
  GetVDim (FESpace (KellyErrorEstimator.solution k)) <> 1 ->
  Lp_ComputeEstimates lp = Aborted lp /\
  exists k',
    Kelly_ComputeEstimates true k = Aborted k' /\
    KellyErrorEstimator.flux_space k' = Update (KellyErrorEstimator.flux_space k) /\
    KellyErrorEstimator.error_estimates k' = KellyErrorEstimator.error_estimates k /\
    KellyErrorEstimator.total_error k' = KellyErrorEstimator.total_error k /\
    KellyErrorEstimator.current_sequence k' = KellyErrorEstimator.current_sequence k /\
    KellyErrorEstimator.attributes k' = KellyErrorEstimator.attributes k /\
    KellyErrorEstimator.solution k' = KellyErrorEstimator.solution k.
Proof.
  intros Hcoef Hvcoef Hvdim. split.
  - unfold LpErrorEstimator.ComputeEstimates. by rewrite Hcoef, Hvcoef.
  - eexists. split; [by apply KellyFacts.ComputeEstimates_vector_valued|].
    by repeat split.
Qed.

(** C10: whatever the estimator's state, [ComputeEstimates] of the L2
    Zienkiewicz-Zhu estimator returns with the total error and the error
    vector the external routine gives when called with the solver
    tolerance 1e-12 and the iteration cap 200; these two arguments are
    constants of the method, no field of the estimator enters them. *)
Theorem C10_fixed_solver_parameters (l2 : L2ZienkiewiczZhuEstimator.t) :
  let result :=
    L2ZZErrorEstimator (L2ZienkiewiczZhuEstimator.solution l2)
      (Update (L2ZienkiewiczZhuEstimator.smooth_flux_space l2))
      (Update (L2ZienkiewiczZhuEstimator.flux_space l2))
      (L2ZienkiewiczZhuEstimator.error_estimates l2)
      (L2ZienkiewiczZhuEstimator.local_norm_p l2)
      0x1.19799812dea11p-40%float 200 in
  L2ZienkiewiczZhuEstimator.solver_tol = 0x1.19799812dea11p-40%float /\
  L2ZienkiewiczZhuEstimator.solver_max_it = 200 /\
  exists l2',
    L2ZZ_ComputeEstimates l2 = Done l2' /\
    L2ZienkiewiczZhuEstimator.total_error l2' = result.1 /\
    L2ZienkiewiczZhuEstimator.error_estimates l2' = result.2.
Proof.
  intros result. split; [done|]. split; [done|].
  unfold L2ZienkiewiczZhuEstimator.ComputeEstimates,
    L2ZienkiewiczZhuEstimator.solver_tol, L2ZienkiewiczZhuEstimator.solver_max_it.
  fold result. destruct result as [total errors]. by eexists.
Qed.

End Facts.
End FamilyFacts.

(** ** The statements on the small configuration *)
Module Examples.
Import Fixture.

Local Abbreviation face_jumps :=
  (KellyErrorEstimator.face_jumps GetVectorValue CalcOrtho MultTranspose).
Local Abbreviation local_face :=
  (KellyErrorEstimator.local_face GetVectorValue CalcOrtho MultTranspose IntRules_Get).
Local Abbreviation shared_face :=
  (KellyErrorEstimator.shared_face GetVectorValue CalcOrtho MultTranspose IntRules_Get).
Local Abbreviation recover_flux :=
  (KellyErrorEstimator.recover_flux GetSubVector ComputeElementFlux).
Local Abbreviation shared_int_rule :=
  (KellyErrorEstimator.shared_int_rule IntRules_Get).

(** C1: on the interior face of the unit mesh, with the flux (1, 0) on
    both sides (no jump), the normal (1, -0), one quadrature point of
    weight 1 and face weight 1, the accumulator after the side-2 loop
    holds 2, the sum of the two normal fluxes: the normal is negated and
    the term is subtracted, which adds it.  The shared face, whose
    neighbour holds the same flux, gives 2 as well.  The difference of the
    fluxes dotted with the normal, the jump the specification describes,
    is 0 there. *)
Theorem C1_side2_term_is_added :
  let FT := GetFaceElementTransformations unit_mesh 1 in
  let rule := IntRules_Get (FaceGeom FT) 0 in
  let val1 := GetVectorValue continuous_flux (Elem1No FT) (Transform (Loc1 FT) mid) in
  let val2 := GetVectorValue continuous_flux (Elem2No FT) (Transform (Loc2 FT) mid) in
  let normal := CalcOrtho (EvalJacobian (Face FT) (Some mid)) in
  rule = [mid] /\ val1 = [1; 0]%float /\ val2 = [1; 0]%float /\
  normal = [1; -0]%float /\ weight mid = 1%float /\
  EvalWeight (Face FT) (Some mid) = 1%float /\
  face_jumps unit_mesh continuous_flux true FT rule = [2%float] /\
  face_jumps unit_mesh exchanged_flux false
    (GetSharedFaceTransformations unit_mesh 0) rule = [2%float] /\
  KellyErrorEstimator.jump_as_specified val1 val2 normal (weight mid)
    (EvalWeight (Face FT) (Some mid)) = 0%float.
Proof. vm_compute. repeat split; reflexivity. Qed.

(** Of the three local faces of the unit mesh (boundary, interior,
    shared) the loop integrates the interior one, and the run adds to the
    zeroed sums what that face adds. *)
Example unit_mesh_integrates_interior_face :
  List.filter (KellyErrorEstimator.integrated continuous) (seq 0 3) = [1%nat] /\
  KellyErrorEstimator.local_faces GetVectorValue CalcOrtho MultTranspose
    IntRules_Get continuous exchanged_flux [0; 0]%float =
  local_face continuous exchanged_flux 1 [0; 0]%float.
Proof. split; vm_compute; reflexivity. Qed.

(** C2 witness: the interior face of the unit mesh is conforming with
    element indices 0 < 1 and passes the empty filter; it occurs once
    among the integrated faces, and the loop credits its contribution 4
    to both elements. *)
Lemma C2_witness :
  count_occ Nat.eq_dec
    (List.filter (KellyErrorEstimator.integrated continuous) (seq 0 3)) 1%nat
  = 1%nat /\
  KellyErrorEstimator.local_faces GetVectorValue CalcOrtho MultTranspose
    IntRules_Get continuous exchanged_flux [0; 0]%float = Some [4; 4]%float.
Proof.
  destruct (KellyFacts.C2_local_faces_integrated_once
              GetVectorValue CalcOrtho MultTranspose IntRules_Get
              continuous exchanged_flux [0; 0]%float)
    as (_ & _ & _ & Hloop & _ & Honce & _).
  split.
  - apply (Honce 1%nat).
    + cbn. lia.
    + reflexivity.
    + cbn. lia.
    + left. cbn. split; [reflexivity | lia].
    + reflexivity.
  - rewrite Hloop. vm_compute. reflexivity.
Defined.

(** C2 counterexample: two interior faces that are never integrated.  In
    the reversed mesh local face 1 lies between two elements, is
    conforming and the filter is empty, but its first element index 1 is
    not below its second, 0: no face is integrated, the local loop leaves
    the sums as they are and the call returns the estimate 0 for element
    0.  In the unit mesh with the filter [{1}] the interior face, whose
    indices are 0 < 1, is dropped by the filter. *)
Lemma C2_interior_faces_not_integrated :
  (FaceIsInterior reversed_mesh 1 = true /\
   Elem1No (GetFaceElementTransformations reversed_mesh 1) = 1 /\
   Elem2No (GetFaceElementTransformations reversed_mesh 1) = 0 /\
   (GetFaceInfos reversed_mesh 1).2 = -1 /\
   KellyErrorEstimator.attributes reversed = [] /\
   List.filter (KellyErrorEstimator.integrated reversed) (seq 0 3) = [] /\
   KellyErrorEstimator.local_faces GetVectorValue CalcOrtho MultTranspose
     IntRules_Get reversed (field (fluxes reversed_mesh 7) [1; 0; 1; 0]%float)
     [0; 0]%float = Some [0; 0]%float /\
   exists st',
     run true [1; 0]%float (fun a => a) reversed = Done st' /\
     KellyErrorEstimator.error_estimates st' = [0; 2]%float) /\
  (FaceIsInterior unit_mesh 1 = true /\
   Elem1No (GetFaceElementTransformations unit_mesh 1) = 0 /\
   Elem2No (GetFaceElementTransformations unit_mesh 1) = 1 /\
   (GetFaceInfos unit_mesh 1).2 = -1 /\
   List.filter (KellyErrorEstimator.integrated filtered) (seq 0 3) = []).
Proof.
  split.
  - do 6 (split; [vm_compute; reflexivity|]).
    split; [vm_compute; reflexivity|].
    exists (final reversed (run true [1; 0]%float (fun a => a) reversed)).
    split; vm_compute; reflexivity.
  - do 4 (split; [vm_compute; reflexivity|]). vm_compute. reflexivity.
Qed.

(** C3 witness: local face 1 credits 4 to elements 0 and 1; shared face
    0 credits 4 to element 1 only. *)
Lemma C3_witness :
  KellyErrorEstimator.integrated continuous 1 = true /\
  local_face continuous exchanged_flux 1 [0; 0]%float = Some [4; 4]%float /\
  shared_face continuous exchanged_flux 0 [0; 0]%float = Some [0; 4]%float.
Proof.
  assert (KellyErrorEstimator.integrated continuous 1 = true) as Hint
    by (vm_compute; reflexivity).
  destruct (KellyFacts.C3_face_contribution_credited
              GetVectorValue CalcOrtho MultTranspose IntRules_Get
              continuous exchanged_flux [0; 0]%float) as [Hlocal Hshared].
  destruct (Hlocal 1%nat Hint ltac:(cbn; lia) ltac:(cbn; lia))
    as (e1 & -> & -> & _).
  destruct (Hshared 0%nat ltac:(vm_compute; reflexivity) ltac:(cbn; lia))
    as (e2 & -> & -> & _).
  split; [exact Hint|]. split; vm_compute; reflexivity.
Defined.

(** C4 counterexample: with faces of length 10 and the finite element
    values 2^1023 and -2^1023 the call returns and the estimate of element
    0 is NaN, for which [0 <= v] is false. *)
Lemma C4_estimate_not_at_least_zero :
  exists st' v,
    run true [0; 0]%float (fun a => a) huge = Done st' /\
    KellyErrorEstimator.error_estimates st' !! 0%nat = Some v /\
    (0 <=? v)%float = false.
Proof.
  exists (final huge (run true [0; 0]%float (fun a => a) huge)), nan.
  vm_compute. repeat split; reflexivity.
Qed.

(** C4 witness: the run on the continuous configuration returns; its
    estimates are never below 0 and its total is the reduction of its
    local sum; in the run of two processes both hold the reduced total. *)
Lemma C4_witness :
  run true [1; 0]%float (fun a => a) continuous = Done continuous_final /\
  run_all [1; 0]%float [continuous; filtered] = Some two_processes /\
  (forall e v,
     KellyErrorEstimator.error_estimates continuous_final !! e = Some v ->
     (v <? 0)%float = false) /\
  KellyErrorEstimator.total_error continuous_final =
    Sum (KellyErrorEstimator.error_estimates continuous_final) /\
  (forall r, r ∈ two_processes ->
     KellyErrorEstimator.total_error r =
     MPI_SUM (map (fun q => Sum (KellyErrorEstimator.error_estimates q))
                two_processes)).
Proof.
  assert (run true [1; 0]%float (fun a => a) continuous = Done continuous_final)
    as Hrun by (vm_compute; reflexivity).
  assert (run_all [1; 0]%float [continuous; filtered] = Some two_processes)
    as Hall by (vm_compute; reflexivity).
  destruct (KellyFacts.C4_finalized_estimates _ _ _ _ _ _ _ _ _ _ _ _ _ _ _
              Hrun Hall) as (_ & Hsign & Htotal & _ & Hsum).
  split; [exact Hrun|]. split; [exact Hall|]. split; [|split; [exact Htotal|exact Hsum]].
  intros e v Hv. exact (proj2 (Hsign e v Hv)).
Defined.

(** C5 witness: the four estimators over the unit mesh. *)
Lemma C5_witness :
  ZienkiewiczZhuEstimator.ComputeEstimates Update ZZErrorEstimator zz = Done zz_final /\
  ZienkiewiczZhuEstimator.current_sequence zz_final = 7 /\
  length (ZienkiewiczZhuEstimator.error_estimates zz_final) = 2%nat /\
  L2ZienkiewiczZhuEstimator.current_sequence l2zz_final = 7 /\
  length (L2ZienkiewiczZhuEstimator.error_estimates l2zz_final) = 2%nat /\
  LpErrorEstimator.current_sequence _ _ lp_final = 7 /\
  length (LpErrorEstimator.error_estimates _ _ lp_final) = 2%nat /\
  KellyErrorEstimator.current_sequence continuous_final = 7 /\
  length (KellyErrorEstimator.error_estimates continuous_final) = 2%nat.
Proof.
  assert (ZienkiewiczZhuEstimator.ComputeEstimates Update ZZErrorEstimator zz
          = Done zz_final) as Hzz by (vm_compute; reflexivity).
  assert (L2ZienkiewiczZhuEstimator.ComputeEstimates Update L2ZZErrorEstimator l2zz
          = Done l2zz_final) as Hl2 by (vm_compute; reflexivity).
  assert (LpErrorEstimator.ComputeEstimates unit unit ComputeElementLpErrors
            ComputeElementLpErrors (lp (Some tt)) = Done lp_final) as Hlp
    by (vm_compute; reflexivity).
  assert (run true [1; 0]%float (fun a => a) continuous = Done continuous_final)
    as Hk by (vm_compute; reflexivity).
  destruct (FamilyFacts.C5_cache_contract
              Update ZZErrorEstimator L2ZZErrorEstimator unit unit
              ComputeElementLpErrors ComputeElementLpErrors
              true GetSubVector ComputeElementFlux GetVectorValue
              (ExchangeFaceNbrData [1; 0]%float) CalcOrtho MultTranspose
              IntRules_Get (fun a => a)
              ltac:(intros; apply length_replicate)
              ltac:(intros; apply length_replicate)
              ltac:(intros; apply length_map)
              ltac:(intros; apply length_map)
              zz zz_final l2zz l2zz_final (lp (Some tt)) lp_final
              continuous continuous_final Hzz Hl2 Hlp Hk)
    as ((Hz1 & Hz2) & (Hl1 & Hl2') & (Hp1 & Hp2) & (Hk1 & Hk2)).
  exact (conj Hzz (conj Hz1 (conj Hz2 (conj Hl1 (conj Hl2' (conj Hp1
           (conj Hp2 (conj Hk1 Hk2)))))))).
Defined.

(** The rules of the configuration have the degree they are asked for. *)
Lemma Get_degree_holds geom k : k <= Degree (IntRules_Get geom k).
Proof.
  unfold Degree, IntRules_Get. rewrite length_replicate.
  Z.div_mod_to_equations. lia.
Qed.

(** C6 counterexample: [IntegrationRules::Get] keeps its promise, local
    face 0 has order 1 and the shared face (local face 2) has order 2;
    the rule of the shared face is requested with 2 * 1 and has degree 3,
    below 2 * 2. *)
Lemma C6_shared_rule_below_twice_face_order :
  (forall geom k, k <= Degree (IntRules_Get geom k)) /\
  GetFaceOrder (FESpace (KellyErrorEstimator.solution mixed_orders))
    (GetSharedFace unit_mesh 0) = 2 /\
  Degree (shared_int_rule mixed_orders 0) = 3 /\
  ~ (2 * GetFaceOrder (FESpace (KellyErrorEstimator.solution mixed_orders))
           (GetSharedFace unit_mesh 0)
     <= Degree (shared_int_rule mixed_orders 0)).
Proof.
  split; [exact Get_degree_holds|]. vm_compute.
  split; [reflexivity|]. split; [reflexivity|]. intros H. by apply H.
Qed.

(** C6 witness: with the uniform order 1 the rules of local face 1 and of
    shared face 0 have degree at least 2. *)
Lemma C6_witness :
  (forall geom k, k <= Degree (IntRules_Get geom k)) /\
  2 * 1 <= Degree (KellyErrorEstimator.local_int_rule IntRules_Get
                     (kelly unit_mesh 1 (fun _ => 1) 7 [] [1; 1]%float) 1) /\
  2 * 1 <= Degree (shared_int_rule
                     (kelly unit_mesh 1 (fun _ => 1) 7 [] [1; 1]%float) 0).
Proof.
  destruct (KellyFacts.C6_rule_degree IntRules_Get Degree Get_degree_holds
              (kelly unit_mesh 1 (fun _ => 1) 7 [] [1; 1]%float) 1%nat 0%nat)
    as (_ & _ & Hlocal & Hshared & _).
  destruct (Hlocal ltac:(cbn; lia)) as [_ Hl].
  destruct (Hshared ltac:(cbn; lia)) as (_ & Hs & _).
  exact (conj Get_degree_holds (conj Hl Hs)).
Defined.

(** C7 witness: with the filter [{1}] element 1 (attribute 2) is excluded;
    its flux entries 2 and 3 stay 0 and the interior face, which touches
    it, leaves the error sums alone. *)
Lemma C7_witness :
  KellyErrorEstimator.attributes filtered <> [] /\
  recover_flux filtered (fluxes unit_mesh 7) = Some filtered_flux /\
  data filtered_flux !! 2%nat = Some 0%float /\
  data filtered_flux !! 3%nat = Some 0%float /\
  local_face filtered filtered_flux 1 [0; 0]%float = Some [0; 0]%float /\
  shared_face filtered filtered_flux 0 [0; 0]%float = Some [0; 0]%float.
Proof.
  assert (KellyErrorEstimator.attributes filtered <> []) as Hne by done.
  assert (recover_flux filtered (fluxes unit_mesh 7) = Some filtered_flux)
    as Hflux by (vm_compute; reflexivity).
  assert (2 ∉ [1]) as Hattr.
  { apply not_elem_of_cons. split; [done | apply not_elem_of_nil]. }
  destruct (KellyFacts.C7_attribute_filter GetSubVector ComputeElementFlux
              GetVectorValue CalcOrtho MultTranspose IntRules_Get filtered)
    as (_ & Hzero & Hlocal & Hshared).
  specialize (Hzero (fluxes unit_mesh 7) filtered_flux 1%nat Hne Hattr Hflux).
  specialize (Hlocal filtered_flux 1%nat [0; 0]%float Hne).
  specialize (Hshared filtered_flux 0%nat [0; 0]%float Hne).
  assert (forall k, Z.of_nat k ∈ GetElementVDofs (fluxes unit_mesh 7) 1 ->
            (k < GetVSize (fluxes unit_mesh 7))%nat ->
            data filtered_flux !! k = Some 0%float) as Hzero'.
  { apply Hzero. intros e' j He' Hex Hj.
    destruct e' as [|[|e']]; [|discriminate Hex|cbn in He'; lia].
    cbn in Hj |- *.
    apply elem_of_cons in Hj as [->|Hj];
      [|apply elem_of_cons in Hj as [->|Hj]; [|by apply elem_of_nil in Hj]];
      (apply not_elem_of_cons; split; [done|]);
      (apply not_elem_of_cons; split; [done | apply not_elem_of_nil]). }
  split; [exact Hne|]. split; [exact Hflux|].
  split; [apply (Hzero' 2%nat); [apply list_elem_of_In; vm_compute; tauto | cbn; lia]|].
  split; [apply (Hzero' 3%nat); [apply list_elem_of_In; vm_compute; tauto | cbn; lia]|].
  split.
  - apply Hlocal. right. exact Hattr.
  - apply Hshared. left. exact Hattr.
Defined.

(** C8 counterexample: the Kelly estimator on a solution with two
    components and a flux space that is behind the mesh.  Built with
    MFEM_DEBUG the call fails, in a state whose flux space has already been
    brought from sequence 6 to 7; built without, the check is absent and
    the call returns. *)
Lemma C8_update_precedes_scalar_check :
  GetVDim (FESpace (KellyErrorEstimator.solution vector_valued)) = 2 /\
  fes_sequence (KellyErrorEstimator.flux_space vector_valued) = 6 /\
  (exists st',
     run true [0; 0]%float (fun a => a) vector_valued = Aborted st' /\
     fes_sequence (KellyErrorEstimator.flux_space st') = 7 /\
     st' <> vector_valued) /\
  (exists st',
     run false [0; 0]%float (fun a => a) vector_valued = Done st').
Proof.
  split; [reflexivity|]. split; [reflexivity|]. split.
  - exists (final vector_valued (run true [0; 0]%float (fun a => a) vector_valued)).
    split; [vm_compute; reflexivity|]. split; [vm_compute; reflexivity|].
    intros Heq.
    apply (f_equal (fun st => fes_sequence (KellyErrorEstimator.flux_space st)))
      in Heq.
    vm_compute in Heq. discriminate Heq.
  - exists (final vector_valued (run false [0; 0]%float (fun a => a) vector_valued)).
    vm_compute. reflexivity.
Qed.

(** C8 witness: the Lp estimator without coefficients and the Kelly
    estimator on the two-component solution. *)
Lemma C8_witness :
  LpErrorEstimator.ComputeEstimates unit unit ComputeElementLpErrors
    ComputeElementLpErrors (lp None) = Aborted (lp None) /\
  exists k',
    run true [0; 0]%float (fun a => a) vector_valued = Aborted k' /\
    KellyErrorEstimator.flux_space k' =
      Update (KellyErrorEstimator.flux_space vector_valued) /\
    KellyErrorEstimator.error_estimates k' = [].
Proof.
  destruct (FamilyFacts.C8_precondition_failures
              Update unit unit ComputeElementLpErrors ComputeElementLpErrors
              GetSubVector ComputeElementFlux GetVectorValue
              (ExchangeFaceNbrData [0; 0]%float) CalcOrtho MultTranspose
              IntRules_Get (fun a => a) (lp None) vector_valued
              eq_refl eq_refl ltac:(cbn; lia))
    as (Hlp & k' & Hk & Hfs & Herr & _).
  split; [exact Hlp|]. exists k'. exact (conj Hk (conj Hfs Herr)).
Defined.

(** C9 witness: the configuration as a mesh of dimension 1 in the plane. *)
Lemma C9_witness :
  Dimension embedded_mesh <> SpaceDimension embedded_mesh /\
  face_jumps embedded_mesh exchanged_flux false
    (GetSharedFaceTransformations embedded_mesh 0) [mid; mid] =
  map (fun p =>
         (KellyErrorEstimator.side1_value GetVectorValue CalcOrtho MultTranspose
            exchanged_flux (GetSharedFaceTransformations embedded_mesh 0) p
          - KellyErrorEstimator.side2_value GetVectorValue CalcOrtho MultTranspose
              exchanged_flux (GetSharedFaceTransformations embedded_mesh 0)
              (Some mid) p)%float) [mid; mid].
Proof.
  assert (Dimension embedded_mesh <> SpaceDimension embedded_mesh) as Hdim
    by (cbn; lia).
  destruct (KellyFacts.C9_side2_normal_through_element1
              GetVectorValue CalcOrtho MultTranspose embedded_mesh
              exchanged_flux (GetSharedFaceTransformations embedded_mesh 0)
              mid [mid; mid] Hdim) as (_ & _ & _ & _ & _ & _ & Hshared).
  exact (conj Hdim Hshared).
Defined.

End Examples.

(** * Further properties of the methods *)

(** ** More on loops and vector updates *)
Section MoreLoops.
Context {A S : Type}.
Implicit Types (body : A -> S -> option S) (l : list A) (s : S).

Lemma for_each_app body l1 l2 s :
  for_each body (l1 ++ l2) s =
  match for_each body l1 s with
  | Some s' => for_each body l2 s'
  | None => None
  end.
Proof.
  revert s. induction l1 as [|a l1 IH]; intros s; simpl; [done|].
  destruct (body a s); [apply IH | done].
Qed.

(** The loop has a result as soon as every iteration has one on the
    states it meets. *)
Lemma for_each_total (P : S -> Prop) body l s :
  (forall a t, a ∈ l -> P t -> exists t', body a t = Some t' /\ P t') ->
  P s -> exists s', for_each body l s = Some s' /\ P s'.
Proof.
  revert s. induction l as [|a l IH]; intros s Hstep HP; simpl; [by eauto|].
  destruct (Hstep a s) as (t & -> & HPt); [by left | done |].
  apply IH; [|done]. intros b u Hin. apply Hstep. by right.
Qed.

(** In a loop that has a result every iteration had one, on a state the
    invariant holds for. *)
Lemma for_each_Some_each (P : S -> Prop) body l s s' :
  (forall a t t', a ∈ l -> P t -> body a t = Some t' -> P t') ->
  P s -> for_each body l s = Some s' ->
  forall a, a ∈ l -> exists t t', P t /\ body a t = Some t'.
Proof.
  revert s. induction l as [|b l IH]; intros s Hstep HP Hloop a Ha.
  - by apply elem_of_nil in Ha.
  - simpl in Hloop. destruct (body b s) as [t|] eqn:Hb; [|done].
    apply elem_of_cons in Ha as [->|Ha]; [by eauto|].
    eapply (IH t); [| |exact Hloop|exact Ha].
    + intros c u u' Hc. apply Hstep. by right.
    + eapply Hstep; [by left|exact HP|exact Hb].
Qed.

End MoreLoops.

Section MoreVectorFacts.
Implicit Types (v : list double) (i : Z) (x : double).

Lemma AddAt_None v i x :
  AddAt v i x = None <-> ~ (0 <= i < Z.of_nat (length v)).
Proof. unfold AddAt. case_decide; split; done. Qed.

(** [AddElementVector] has a result exactly when the two arrays have the
    same size and every degree of freedom is an index of the vector. *)
Lemma AddElementVector_is_Some dofs el v :
  is_Some (AddElementVector dofs el v) <->
  length dofs = length el /\
  Forall (fun j => 0 <= j < Z.of_nat (length v)) dofs.
Proof.
  revert el v. induction dofs as [|j dofs IH]; intros [|x el] v; simpl.
  - split; [by intros _ | by eauto].
  - split; [by intros [? ?] | by intros [? _]].
  - split; [by intros [? ?] | by intros [? _]].
  - destruct (AddAt v j x) as [w|] eqn:Hw.
    + pose proof (AddAt_length _ _ _ _ Hw) as Hlen.
      apply AddAt_Some in Hw as [Hj _].
      split.
      * intros [Hl Hf]%IH. rewrite Hlen in Hf.
        split; [lia | by constructor].
      * intros [Hl Hf]. apply Forall_cons_1 in Hf as [_ Hf].
        apply IH. rewrite Hlen. split; [lia | done].
    + apply AddAt_None in Hw.
      split; [by intros [? ?] |].
      intros [_ Hf]. by apply Forall_cons_1 in Hf as [? _].
Qed.

(** A degree of freedom listed once gets its element value added. *)
Lemma AddElementVector_lookup dofs el v v' (k : nat) j x :
  AddElementVector dofs el v = Some v' ->
  NoDup dofs -> dofs !! k = Some j -> el !! k = Some x ->
  v' !! Z.to_nat j = (fun y => (y + x)%float) <$> v !! Z.to_nat j.
Proof.
  revert el v k. induction dofs as [|j0 dofs IH]; intros [|x0 el] v k; simpl;
    try done.
  destruct (AddAt v j0 x0) as [w|] eqn:Hw; [|done].
  intros Hr Hnd Hj Hx.
  inversion Hnd as [|? ? Hnotin Hnodup]; subst.
  destruct k as [|k]; simpl in *.
  - injection Hj as ->. injection Hx as ->.
    pose proof Hw as [Hrange _]%AddAt_Some.
    rewrite (AddElementVector_frame _ _ _ _ (Z.to_nat j) Hr).
    + by apply AddAt_lookup.
    + by rewrite Z2Nat.id by lia.
  - rewrite (IH _ _ _ Hr Hnodup Hj Hx).
    f_equal. eapply AddAt_lookup_ne; [done|].
    pose proof Hw as [Hrange _]%AddAt_Some.
    assert (is_Some (AddElementVector dofs el w)) as [_ Hdofs]%AddElementVector_is_Some
      by (by rewrite Hr).
    apply list_elem_of_lookup_2 in Hj.
    pose proof (proj1 (list.Forall_forall _ _) Hdofs j Hj) as Hjrange.
    simpl in Hjrange. intros Heq. apply Hnotin.
    assert (j0 = j) as -> by lia. done.
Qed.

End MoreVectorFacts.

(** ** More on the Kelly estimator *)
Module KellyMore.
Import KellyErrorEstimator.

Section Facts.

Variable MFEM_DEBUG : bool.
Variable Update : FiniteElementSpace -> FiniteElementSpace.
Variable GetSubVector : Vector -> list Z -> Vector.
Variable ComputeElementFlux :
  FiniteElementSpace -> FiniteElementSpace -> nat -> Vector -> Vector.
Variable GetVectorValue : GridFunction -> Z -> IntegrationPoint -> Vector.
Variable ExchangeFaceNbrData : GridFunction -> GridFunction.
Variable CalcOrtho : DenseMatrix -> Vector.
Variable MultTranspose : DenseMatrix -> Vector -> Vector.
Variable IntRules_Get : Z -> Z -> IntegrationRule.

Local Abbreviation flux_element := (flux_element GetSubVector ComputeElementFlux).
Local Abbreviation recover_flux := (recover_flux GetSubVector ComputeElementFlux).
Local Abbreviation face_normal := (face_normal CalcOrtho MultTranspose).
Local Abbreviation side1_point := (side1_point GetVectorValue CalcOrtho MultTranspose).
Local Abbreviation side2_point := (side2_point GetVectorValue CalcOrtho MultTranspose).
Local Abbreviation side1_loop := (side1_loop GetVectorValue CalcOrtho MultTranspose).
Local Abbreviation side2_loop := (side2_loop GetVectorValue CalcOrtho MultTranspose).
Local Abbreviation face_jumps := (face_jumps GetVectorValue CalcOrtho MultTranspose).
Local Abbreviation local_int_rule := (local_int_rule IntRules_Get).
Local Abbreviation shared_int_rule := (shared_int_rule IntRules_Get).
Local Abbreviation local_face_body :=
  (local_face_body GetVectorValue CalcOrtho MultTranspose IntRules_Get).
Local Abbreviation local_face :=
  (local_face GetVectorValue CalcOrtho MultTranspose IntRules_Get).
Local Abbreviation shared_face :=
  (shared_face GetVectorValue CalcOrtho MultTranspose IntRules_Get).
Local Abbreviation local_faces :=
  (local_faces GetVectorValue CalcOrtho MultTranspose IntRules_Get).
Local Abbreviation shared_faces :=
  (shared_faces GetVectorValue CalcOrtho MultTranspose IntRules_Get).
Local Abbreviation started := (started Update).
Local Abbreviation ComputeEstimates_local :=
  (ComputeEstimates_local MFEM_DEBUG Update GetSubVector ComputeElementFlux
     GetVectorValue ExchangeFaceNbrData CalcOrtho MultTranspose IntRules_Get).
Local Abbreviation ComputeEstimates :=
  (ComputeEstimates MFEM_DEBUG Update GetSubVector ComputeElementFlux
     GetVectorValue ExchangeFaceNbrData CalcOrtho MultTranspose IntRules_Get).
Local Abbreviation flux_in_range :=
  (KellyConditions.flux_in_range Update GetSubVector ComputeElementFlux).
Local Abbreviation faces_in_range := KellyConditions.faces_in_range.
Local Abbreviation same_inputs := KellyConditions.same_inputs.
Local Abbreviation face_side1 := (KellyConditions.face_side1 GetVectorValue CalcOrtho).
Local Abbreviation face_side2 := (KellyConditions.face_side2 GetVectorValue CalcOrtho).

Implicit Types (st : t) (flux : GridFunction) (errors : list double) (f e : nat).

(** *** The filter as a membership test *)
Lemma excluded_false (attrs : list Z) (a : Z) :
  excluded attrs a = false <-> attrs = [] \/ a ∈ attrs.
Proof.
  destruct (excluded attrs a) eqn:Hex.
  - apply KellyFacts.excluded_spec in Hex as [Hne Hnotin].
    split; [done | by intros [->|Hin]].
  - split; [|done]. intros _.
    destruct attrs as [|b attrs]; [by left|].
    destruct (decide (a ∈ b :: attrs)) as [|Hnotin]; [by right|].
    assert (excluded (b :: attrs) a = true) as Hyes
      by (by apply KellyFacts.excluded_spec).
    congruence.
Qed.

Lemma face_excluded_false (attrs : list Z) (FT : FaceElementTransformations) :
  face_excluded attrs FT = false <->
  attrs = [] \/ (Attribute (Elem1 FT) ∈ attrs /\ Attribute (Elem2 FT) ∈ attrs).
Proof.
  destruct (face_excluded attrs FT) eqn:Hex.
  - apply KellyFacts.face_excluded_spec in Hex as [Hne Hnotin].
    split; [done|]. intros [->|[H1 H2]]; [done|]. by destruct Hnotin.
  - split; [|done]. intros _.
    destruct attrs as [|b attrs]; [by left|].
    destruct (decide (Attribute (Elem1 FT) ∈ b :: attrs)) as [|H1].
    + destruct (decide (Attribute (Elem2 FT) ∈ b :: attrs)) as [|H2]; [by right|].
      assert (face_excluded (b :: attrs) FT = true) as Hyes
        by (apply KellyFacts.face_excluded_spec; split; [done | by right]).
      congruence.
    + assert (face_excluded (b :: attrs) FT = true) as Hyes
        by (apply KellyFacts.face_excluded_spec; split; [done | by left]).
      congruence.
Qed.

(** X1: the attribute filter is a membership test at its three sites.  A
    local face reaches the integration exactly when the convention hands it
    to the loop and the filter is empty or holds the attributes of both
    adjacent elements; under the same condition a shared face credits its
    jump integral to its first element, and an element whose attribute
    passes has its flux added to the flux vector. *)
Theorem filter_is_membership st fs flux f sf e errors (v : Vector) :
  let xfes := FESpace (solution st) in
  let pmesh := GetMesh xfes in
  let attrs := attributes st in
  let FT := GetFaceElementTransformations pmesh f in
  let SFT := GetSharedFaceTransformations pmesh sf in
  (integrated st f = true <->
   handled pmesh f = true /\
   (attrs = [] \/ (Attribute (Elem1 FT) ∈ attrs /\ Attribute (Elem2 FT) ∈ attrs))) /\
  (attrs = [] \/ (Attribute (Elem1 SFT) ∈ attrs /\ Attribute (Elem2 SFT) ∈ attrs) ->
   shared_face st flux sf errors =
   AddAt errors (Elem1No SFT)
     (jump_integral (compute_face_coefficient st pmesh sf true)
        (face_jumps pmesh flux false SFT (shared_int_rule st sf)))) /\
  (attrs = [] \/ GetAttribute xfes e ∈ attrs ->
   flux_element st fs e v =
   AddElementVector (GetElementVDofs fs e)
     (ComputeElementFlux xfes fs e
        (GetSubVector (data (solution st)) (GetElementVDofs xfes e))) v).
Proof.
  intros xfes pmesh attrs FT SFT. split; [split|split].
  - unfold integrated. fold xfes pmesh FT attrs.
    intros [Hh Hx%negb_true_iff]%andb_true_iff.
    split; [done | by apply face_excluded_false].
  - intros [Hh Hx%face_excluded_false]. unfold integrated.
    fold xfes pmesh FT attrs. by rewrite Hh, Hx.
  - intros Hx%face_excluded_false. unfold KellyErrorEstimator.shared_face.
    fold xfes pmesh SFT attrs. by rewrite Hx.
  - intros Hx%excluded_false. unfold KellyErrorEstimator.flux_element.
    fold xfes attrs. by rewrite Hx.
Qed.

(** *** What the face loops leave alone *)
Lemma local_face_frame st flux f errors errors' e :
  local_face st flux f errors = Some errors' ->
  (integrated st f = true ->
   let FT := GetFaceElementTransformations (GetMesh (FESpace (solution st))) f in
   Elem1No FT <> Z.of_nat e /\ Elem2No FT <> Z.of_nat e) ->
  errors' !! e = errors !! e.
Proof.
  rewrite KellyFacts.local_face_unfold.
  destruct (integrated st f); [|by intros [= ->]].
  unfold KellyErrorEstimator.local_face_body.
  destruct (AddAt errors _ _) as [w|] eqn:Hw; [|done].
  intros Hr Hne. destruct (Hne eq_refl) as [H1 H2].
  pose proof Hw as [? _]%AddAt_Some. pose proof Hr as [? _]%AddAt_Some.
  rewrite (AddAt_lookup_ne _ _ _ _ e Hr) by lia.
  apply (AddAt_lookup_ne _ _ _ _ e Hw). lia.
Qed.

Lemma shared_face_frame st flux sf errors errors' e :
  shared_face st flux sf errors = Some errors' ->
  (let FT := GetSharedFaceTransformations (GetMesh (FESpace (solution st))) sf in
   face_excluded (attributes st) FT = false -> Elem1No FT <> Z.of_nat e) ->
  errors' !! e = errors !! e.
Proof.
  unfold KellyErrorEstimator.shared_face.
  destruct (face_excluded _ _); [by intros [= ->]|].
  intros Hr Hne. pose proof Hr as [? _]%AddAt_Some.
  apply (AddAt_lookup_ne _ _ _ _ e Hr). specialize (Hne eq_refl). lia.
Qed.

(** X2: an element that no integrated local face has as an adjacent
    element and no shared face passing the filter has as its first element
    ends a returning call with the estimate [sqrt (factor * 0)], its sum
    never having been written. *)
Theorem untouched_element_estimate allreduce st st' e :
  let xfes := FESpace (solution st) in
  let pmesh := GetMesh xfes in
  ComputeEstimates allreduce st = Done st' ->
  (e < GetNE pmesh)%nat ->
  (forall f, (f < GetNumFaces pmesh)%nat -> integrated st f = true ->
     Elem1No (GetFaceElementTransformations pmesh f) <> Z.of_nat e /\
     Elem2No (GetFaceElementTransformations pmesh f) <> Z.of_nat e) ->
  (forall sf, (sf < GetNSharedFaces pmesh)%nat ->
     face_excluded (attributes st) (GetSharedFaceTransformations pmesh sf) = false ->
     Elem1No (GetSharedFaceTransformations pmesh sf) <> Z.of_nat e) ->
  error_estimates st' !! e =
  Some (PrimFloat.sqrt (compute_element_coefficient st pmesh e * 0)).
Proof.
  intros xfes pmesh Hdone He Hlocal Hshared.
  apply KellyFacts.ComputeEstimates_Done in Hdone as (st1 & Hl & ->).
  apply KellyFacts.ComputeEstimates_local_Done in Hl
    as (_ & flux & errors & sums & _ & Hl & Hs & ->).
  rewrite KellyFacts.started_estimates in Hl.
  assert (errors !! e = Some 0%float) as Herr.
  { revert Hl. unfold KellyErrorEstimator.local_faces.
    apply (for_each_invariant (fun v => v !! e = Some 0%float)).
    - intros f v v' Hf%elem_of_seq Hv Hstep. rewrite <- Hv.
      eapply local_face_frame; [exact Hstep|].
      intros Hint. apply Hlocal; [|done]. unfold pmesh, xfes. simpl in Hf. lia.
    - by apply lookup_replicate_2. }
  assert (sums !! e = Some 0%float) as Hsum.
  { revert Hs. unfold KellyErrorEstimator.shared_faces.
    apply (for_each_invariant (fun v => v !! e = Some 0%float)); [|done].
    intros sf v v' Hf%elem_of_seq Hv Hstep. rewrite <- Hv.
    eapply shared_face_frame; [exact Hstep|].
    intros FT Hx. apply Hshared; [|done]. unfold pmesh, xfes. simpl in Hf. lia. }
  simpl. rewrite KellyFacts.finalize_lookup.
  change (solution (started st)) with (solution st). fold xfes.
  unfold FES_GetNE. fold pmesh.
  destruct (Nat.ltb_spec e (GetNE pmesh)); [|lia]. by rewrite Hsum.
Qed.

(** *** When the call returns *)

Lemma recover_flux_is_Some st :
  is_Some (recover_flux (started st) (flux_space (started st))) <->
  flux_in_range st.
Proof.
  unfold KellyErrorEstimator.recover_flux, KellyConditions.flux_in_range, Assign,
    GridFunction_new.
  simpl. rewrite length_replicate.
  set (fs := Update (flux_space st)). set (xfes := FESpace (solution st)).
  set (n := FES_GetNE xfes). set (v0 := replicate (GetVSize fs) 0%float).
  assert (length v0 = GetVSize fs) as Hv0 by apply length_replicate.
  assert (forall e v, length v = GetVSize fs ->
            is_Some (flux_element (started st) fs e v) <->
            (excluded (attributes st) (GetAttribute xfes e) = false ->
             length (GetElementVDofs fs e) =
             length (ComputeElementFlux xfes fs e
                       (GetSubVector (data (solution st)) (GetElementVDofs xfes e))) /\
             Forall (fun j => 0 <= j < Z.of_nat (GetVSize fs)) (GetElementVDofs fs e)))
    as Hstep.
  { intros e v Hv. unfold KellyErrorEstimator.flux_element. simpl. fold xfes.
    destruct (excluded _ _).
    - split; [done | by eauto].
    - rewrite AddElementVector_is_Some, Hv. split; [by intros ? _ | by auto]. }
  split.
  - intros Hsome e He Hex.
    destruct (for_each _ _ v0) as [v|] eqn:Hloop; [|by destruct Hsome].
    destruct (for_each_Some_each (fun v => length v = GetVSize fs) _ _ _ _
                ltac:(intros a u u' _ Hu Hb; rewrite <- Hu;
                      by eapply KellyFacts.flux_element_length)
                Hv0 Hloop e) as (u & u' & Hu & Hb).
    { apply elem_of_seq. lia. }
    apply (Hstep e u Hu); [by rewrite Hb | done].
  - intros Hrange.
    destruct (for_each_total (fun v => length v = GetVSize fs)
                (flux_element (started st) fs) (seq 0 n) v0) as (v & -> & _);
      [|done|done].
    intros e u He%elem_of_seq Hu.
    destruct (proj2 (Hstep e u Hu)) as [u' Hu'].
    { intros Hex. apply Hrange; [lia|done]. }
    exists u'. split; [done|]. rewrite <- Hu.
    by eapply KellyFacts.flux_element_length.
Qed.

Lemma local_face_is_Some st flux f errors :
  is_Some (local_face st flux f errors) <->
  (integrated st f = true ->
   let FT := GetFaceElementTransformations (GetMesh (FESpace (solution st))) f in
   0 <= Elem1No FT < Z.of_nat (length errors) /\
   0 <= Elem2No FT < Z.of_nat (length errors)).
Proof.
  rewrite KellyFacts.local_face_unfold.
  destruct (integrated st f); [|split; [done | by eauto]].
  unfold KellyErrorEstimator.local_face_body.
  destruct (AddAt errors _ _) as [w|] eqn:Hw.
  - pose proof (AddAt_length _ _ _ _ Hw) as Hlen.
    apply AddAt_Some in Hw as [H1 _]. split.
    + intros [w' [H2 _]%AddAt_Some] _. rewrite Hlen in H2. done.
    + intros Hr. destruct (Hr eq_refl) as [_ H2].
      rewrite AddAt_in_range by (by rewrite Hlen). by eauto.
  - apply AddAt_None in Hw. split; [by intros [? ?]|].
    intros Hr. by destruct (Hr eq_refl).
Qed.

Lemma shared_face_is_Some st flux sf errors :
  is_Some (shared_face st flux sf errors) <->
  (let FT := GetSharedFaceTransformations (GetMesh (FESpace (solution st))) sf in
   face_excluded (attributes st) FT = false ->
   0 <= Elem1No FT < Z.of_nat (length errors)).
Proof.
  unfold KellyErrorEstimator.shared_face.
  destruct (face_excluded _ _); [split; [done | by eauto]|].
  destruct (AddAt errors _ _) as [w|] eqn:Hw.
  - apply AddAt_Some in Hw as [H1 _]. split; [done | by eauto].
  - apply AddAt_None in Hw. split; [by intros [? ?]|].
    intros Hr. by specialize (Hr eq_refl).
Qed.

(** A loop whose iterations keep the length of the vector has a result
    exactly when every iteration has one on vectors of that length. *)
Lemma for_each_is_Some_length {A : Type} (body : A -> Vector -> option Vector)
    (ok : A -> Prop) (l : list A) (n : nat) (v : Vector) :
  (forall a u u', body a u = Some u' -> length u' = length u) ->
  (forall a u, length u = n -> is_Some (body a u) <-> ok a) ->
  length v = n ->
  is_Some (for_each body l v) <-> (forall a, a ∈ l -> ok a).
Proof.
  intros Hlen Hok Hv. split.
  - intros [v' Hloop] a Ha.
    destruct (for_each_Some_each (fun u => length u = n) body l v v'
                ltac:(intros b u u' _ Hu Hb; rewrite <- Hu; by eapply Hlen)
                Hv Hloop a Ha) as (u & u' & Hu & Hb).
    apply (Hok a u Hu). by rewrite Hb.
  - intros Hall.
    destruct (for_each_total (fun u => length u = n) body l v) as (v' & -> & _);
      [|done|done].
    intros a u Ha Hu. destruct (proj2 (Hok a u Hu) (Hall a Ha)) as [u' Hu'].
    exists u'. split; [done|]. rewrite <- Hu. by eapply Hlen.
Qed.

Lemma local_faces_is_Some st flux errors :
  let pmesh := GetMesh (FESpace (solution st)) in
  is_Some (local_faces st flux errors) <->
  (forall f, (f < GetNumFaces pmesh)%nat -> integrated st f = true ->
     0 <= Elem1No (GetFaceElementTransformations pmesh f) < Z.of_nat (length errors) /\
     0 <= Elem2No (GetFaceElementTransformations pmesh f) < Z.of_nat (length errors)).
Proof.
  intros pmesh. unfold KellyErrorEstimator.local_faces. fold pmesh.
  etrans.
  { apply (for_each_is_Some_length _
             (fun f => integrated st f = true ->
                0 <= Elem1No (GetFaceElementTransformations pmesh f)
                  < Z.of_nat (length errors) /\
                0 <= Elem2No (GetFaceElementTransformations pmesh f)
                  < Z.of_nat (length errors))
             _ (length errors)); [| |done].
    - intros a u u'. apply KellyFacts.local_face_length.
    - intros a u Hu. etrans; [apply local_face_is_Some|]. by rewrite Hu. }
  split.
  - intros Hall f Hf. apply Hall, elem_of_seq. lia.
  - intros Hall f Hf%elem_of_seq. apply Hall. lia.
Qed.

Lemma shared_faces_is_Some st flux errors :
  let pmesh := GetMesh (FESpace (solution st)) in
  is_Some (shared_faces st flux errors) <->
  (forall sf, (sf < GetNSharedFaces pmesh)%nat ->
     face_excluded (attributes st) (GetSharedFaceTransformations pmesh sf) = false ->
     0 <= Elem1No (GetSharedFaceTransformations pmesh sf) < Z.of_nat (length errors)).
Proof.
  intros pmesh. unfold KellyErrorEstimator.shared_faces. fold pmesh.
  etrans.
  { apply (for_each_is_Some_length _
             (fun sf =>
                face_excluded (attributes st) (GetSharedFaceTransformations pmesh sf)
                = false ->
                0 <= Elem1No (GetSharedFaceTransformations pmesh sf)
                  < Z.of_nat (length errors))
             _ (length errors)); [| |done].
    - intros a u u'. apply KellyFacts.shared_face_length.
    - intros a u Hu. etrans; [apply shared_face_is_Some|]. by rewrite Hu. }
  split.
  - intros Hall f Hf. apply Hall, elem_of_seq. lia.
  - intros Hall f Hf%elem_of_seq. apply Hall. lia.
Qed.

(** X3: the outcome of a call.  It fails exactly in a build with
    MFEM_DEBUG on a solution whose vdim is not 1, in the state it was
    called in with the flux space updated.  It returns exactly when that
    check passes, the flux loop writes inside the flux vector and every
    integrated local face and every shared face passing the filter has its
    element indices inside the error vector; in every other case a vector
    is indexed outside its range. *)
Theorem outcome_of_call allreduce st :
  let checked := MFEM_DEBUG = false \/ GetVDim (FESpace (solution st)) = 1 in
  (forall s, ComputeEstimates allreduce st = Aborted s <->
     ~ checked /\ s = set_flux_space (Update (flux_space st)) st) /\
  ((exists st', ComputeEstimates allreduce st = Done st') <->
     checked /\ flux_in_range st /\ faces_in_range st) /\
  (ComputeEstimates allreduce st = Undefined <->
     checked /\ ~ (flux_in_range st /\ faces_in_range st)).
Proof.
  intros checked.
  assert (MFEM_DEBUG && negb (GetVDim (FESpace (solution st)) =? 1) = false
          <-> checked) as Hcheck.
  { unfold checked. destruct MFEM_DEBUG; simpl.
    - rewrite negb_false_iff, Z.eqb_eq. split; [by right | by intros [?|?]].
    - split; [by left | done]. }
  assert (length (error_estimates (started st))
          = GetNE (GetMesh (FESpace (solution st)))) as Hlen0.
  { rewrite KellyFacts.started_estimates. apply length_replicate. }
  assert ((exists st', ComputeEstimates allreduce st = Done st') <->
          checked /\ flux_in_range st /\ faces_in_range st) as Hdone.
  { split.
    - intros (st' & (st1 & Hl & _)%KellyFacts.ComputeEstimates_Done).
      apply KellyFacts.ComputeEstimates_local_Done in Hl
        as (Hc & flux & errors & sums & Hflux & Hl & Hs & _).
      split; [by apply Hcheck|].
      split; [apply recover_flux_is_Some; by rewrite Hflux|].
      pose proof (KellyFacts.local_faces_length _ _ _ _ _ _ _ _ Hl) as Hlen.
      rewrite Hlen0 in Hlen. split.
      + pose proof (proj1 (local_faces_is_Some (started st) flux _)
                      ltac:(by rewrite Hl)) as Hrange.
        rewrite Hlen0 in Hrange. exact Hrange.
      + pose proof (proj1 (shared_faces_is_Some (started st) _ errors)
                      ltac:(by rewrite Hs)) as Hrange.
        rewrite Hlen in Hrange. exact Hrange.
    - intros (Hc & [flux Hflux]%recover_flux_is_Some & Hlocal & Hshared).
      destruct (proj2 (local_faces_is_Some (started st) flux
                         (error_estimates (started st)))) as [errors Hl].
      { rewrite Hlen0. exact Hlocal. }
      pose proof (KellyFacts.local_faces_length _ _ _ _ _ _ _ _ Hl) as Hlen.
      rewrite Hlen0 in Hlen.
      destruct (proj2 (shared_faces_is_Some (started st)
                         (ExchangeFaceNbrData flux) errors)) as [sums Hs].
      { rewrite Hlen. exact Hshared. }
      eexists. apply KellyFacts.ComputeEstimates_Done. eexists. split; [|done].
      apply KellyFacts.ComputeEstimates_local_Done. split; [by apply Hcheck|].
      by exists flux, errors, sums. }
  assert (forall s, ComputeEstimates allreduce st = Aborted s <->
            ~ checked /\ s = set_flux_space (Update (flux_space st)) st) as Habort.
  { intros s. rewrite <- Hcheck.
    unfold KellyErrorEstimator.ComputeEstimates,
      KellyErrorEstimator.ComputeEstimates_local.
    change (solution (set_flux_space _ st)) with (solution st).
    destruct (MFEM_DEBUG && _).
    - split; [by intros [= <-] | by intros [_ ->]].
    - split; [|by intros [? _]].
      destruct (KellyErrorEstimator.recover_flux _ _ _ _); [|done].
      destruct (KellyErrorEstimator.local_faces _ _ _ _ _ _ _); [|done].
      by destruct (KellyErrorEstimator.shared_faces _ _ _ _ _ _ _). }
  split; [exact Habort|]. split; [exact Hdone|]. split.
  - intros Hundef.
    assert checked as Hc.
    { apply Hcheck. destruct (MFEM_DEBUG && _) eqn:Hb; [|done].
      assert (~ checked) as Hn by (rewrite <- Hcheck; congruence).
      pose proof (proj2 (Habort _) (conj Hn eq_refl)). congruence. }
    split; [done|]. intros Hboth.
    destruct (proj2 Hdone (conj Hc Hboth)) as [st' Hd]. congruence.
  - intros [Hc Hnot].
    destruct (ComputeEstimates allreduce st) as [st'|s|] eqn:Hout; [| |done].
    + destruct Hnot. apply Hdone. by eauto.
    + by destruct (proj1 (Habort s) eq_refl) as [Hn _].
Qed.

(** *** What a call reads *)

Lemma ComputeEstimates_same_inputs allreduce (a b : t) st' :
  same_inputs a b ->
  ComputeEstimates allreduce a = Done st' -> ComputeEstimates allreduce b = Done st'.
Proof.
  destruct a as [seqa ea ta attrs sol fs ce cf], b as [seqb eb tb ? ? ? ? ?].
  intros (Ha & Hs & Hf & Hce & Hcf). simpl in *. subst.
  intros (st1 & Hl & ->)%KellyFacts.ComputeEstimates_Done.
  apply KellyFacts.ComputeEstimates_local_Done in Hl
    as (Hc & flux & errors & sums & Hflux & Hl & Hs & ->).
  apply KellyFacts.ComputeEstimates_Done. eexists. split.
  - apply KellyFacts.ComputeEstimates_local_Done. split; [exact Hc|].
    exists flux, errors, sums. split; [exact Hflux|]. split; [|split; [exact Hs|]].
    + rewrite KellyFacts.started_estimates in Hl |- *. exact Hl.
    + reflexivity.
  - reflexivity.
Qed.

(** X4: a returning call overwrites the results of earlier calls without
    reading them: replacing the error vector, the total and the cached
    sequence number of the state does not change what the call returns,
    whatever [Update] does.  Recomputing is idempotent when updating the
    flux space a second time changes nothing: calling again in the state a
    call returned then gives that same state. *)
Theorem recomputation st st' allreduce errors total seq :
  ComputeEstimates allreduce st = Done st' ->
  ComputeEstimates allreduce
    (set_error_estimates errors (set_total_error total (set_current_sequence seq st)))
  = Done st' /\
  (Update (Update (flux_space st)) = Update (flux_space st) ->
   ComputeEstimates allreduce st' = Done st').
Proof.
  intros Hdone. split.
  - eapply ComputeEstimates_same_inputs; [|exact Hdone]. by repeat split.
  - intros Hidem.
    pose proof Hdone as (st1 & Hl & ->)%KellyFacts.ComputeEstimates_Done.
    pose proof Hl as (Hc & flux & errs & sums & Hflux & Hlf & Hs & ->)
                       %KellyFacts.ComputeEstimates_local_Done.
    apply (ComputeEstimates_same_inputs allreduce
             (set_flux_space (Update (flux_space st)) st)); [by repeat split|].
    apply KellyFacts.ComputeEstimates_Done. eexists. split.
    + apply KellyFacts.ComputeEstimates_local_Done. split; [exact Hc|].
      exists flux, errs, sums.
      unfold KellyErrorEstimator.started. simpl. rewrite Hidem.
      split; [exact Hflux|]. split; [exact Hlf|]. split; [exact Hs|].
      destruct st; reflexivity.
    + destruct st; reflexivity.
Qed.

(** *** The point loops in closed form *)
Lemma face_normal_full (pmesh : ParMesh) (set_loc1 : bool) fip pf pl FT :
  Dimension pmesh = SpaceDimension pmesh ->
  face_normal pmesh set_loc1 fip (with_points pf pl FT) =
  (with_points (Some fip) pl FT, CalcOrtho (EvalJacobian (Face FT) (Some fip))).
Proof.
  intros Hdim. unfold KellyErrorEstimator.face_normal.
  by destruct (Z.eqb_spec (Dimension pmesh) (SpaceDimension pmesh)).
Qed.

Lemma side1_loop_full (pmesh : ParMesh) flux rule pf pl FT :
  Dimension pmesh = SpaceDimension pmesh ->
  side1_loop pmesh flux (with_points pf pl FT) rule =
  (with_points (default pf (Some <$> list.last rule)) pl FT,
   map (face_side1 flux FT) rule).
Proof.
  intros Hdim. revert pf.
  induction rule as [|fip rule IH]; intros pf; simpl; [done|].
  unfold KellyErrorEstimator.side1_point.
  rewrite (face_normal_full pmesh true) by done. rewrite IH.
  rewrite (last_cons fip rule). by destruct (list.last rule).
Qed.

Lemma side2_loop_full (pmesh : ParMesh) flux (b : bool) rule jumps pf pl FT :
  Dimension pmesh = SpaceDimension pmesh ->
  length jumps = length rule ->
  (side2_loop pmesh flux b (with_points pf pl FT) rule jumps).2 =
  zip_with (fun j p => (j - face_side2 flux FT p)%float) jumps rule.
Proof.
  intros Hdim. revert jumps pf.
  induction rule as [|fip rule IH]; intros [|j jumps] pf Hlen; simpl in *;
    try done.
  unfold KellyErrorEstimator.side2_point.
  rewrite (face_normal_full pmesh b) by done.
  specialize (IH jumps (Some fip) ltac:(lia)).
  destruct (side2_loop _ _ _ _ _ _) as [FT' jumps']. simpl in *. by rewrite IH.
Qed.

(** X5: when the mesh dimension equals the space dimension, the jump at
    every quadrature point is the side-1 term minus the side-2 term, both
    taken with the normal [CalcOrtho] gives for the face Jacobian at that
    point (negated on side 2); the computation of the local pass and the
    one of the shared pass, which leaves out a [SetIntPoint], give the same
    jumps. *)
Theorem full_dimension_jumps (pmesh : ParMesh) flux (set_loc1 : bool) FT rule :
  Dimension pmesh = SpaceDimension pmesh ->
  face_jumps pmesh flux set_loc1 FT rule =
    map (fun p => (face_side1 flux FT p - face_side2 flux FT p)%float) rule /\
  face_jumps pmesh flux true FT rule = face_jumps pmesh flux false FT rule.
Proof.
  intros Hdim.
  assert (forall b,
            face_jumps pmesh flux b FT rule =
            map (fun p => (face_side1 flux FT p - face_side2 flux FT p)%float) rule)
    as Hall.
  { intros b. unfold KellyErrorEstimator.face_jumps.
    rewrite <- (KellyFacts.with_points_current FT) at 1.
    rewrite side1_loop_full by done.
    rewrite side2_loop_full by (done || by rewrite length_map).
    apply KellyFacts.zip_with_map_same. }
  split; [apply Hall | by rewrite !Hall].
Qed.

(** X6: in the embedded branch the shared pass reads the Jacobian of
    [Loc1.Transf] at the last point of the rule for every point.  When
    that Jacobian is the same at all points of the rule (an affine
    face-to-element map) the shared pass gives the jumps of the local
    pass. *)
Theorem embedded_passes_agree (pmesh : ParMesh) flux FT rule :
  Dimension pmesh <> SpaceDimension pmesh ->
  (forall p, p ∈ rule ->
     EvalJacobian (Transf (Loc1 FT)) (Some p) =
     EvalJacobian (Transf (Loc1 FT)) (list.last rule)) ->
  face_jumps pmesh flux false FT rule = face_jumps pmesh flux true FT rule.
Proof.
  intros Hdim Hconst. unfold KellyErrorEstimator.face_jumps.
  assert (side1_loop pmesh flux FT rule =
          (with_points (default (IntPoint (Face FT)) (Some <$> list.last rule))
             (default (IntPoint (Transf (Loc1 FT))) (Some <$> list.last rule)) FT,
           map (KellyErrorEstimator.side1_value GetVectorValue CalcOrtho
                  MultTranspose flux FT) rule)) as ->.
  { rewrite <- (KellyFacts.with_points_current FT) at 1.
    by apply KellyFacts.side1_loop_embedded. }
  rewrite KellyFacts.side2_loop_shared_embedded
    by (done || by rewrite length_map).
  rewrite KellyFacts.side2_loop_local_embedded
    by (done || by rewrite length_map).
  rewrite !KellyFacts.zip_with_map_same.
  apply map_ext_in. intros p Hp%list_elem_of_In. f_equal.
  unfold side2_value, pullback_normal. rewrite Hconst by done.
  destruct rule as [|q rule]; [by apply elem_of_nil in Hp|].
  by destruct (list.last (q :: rule)) eqn:Hlast; [|apply last_None in Hlast].
Qed.

(** *** The transformation objects after the point loops *)
Lemma face_normal_state (pmesh : ParMesh) (b : bool) fip pf pl FT :
  exists pl' n,
    face_normal pmesh b fip (with_points pf pl FT) =
    (with_points (Some fip) pl' FT, n).
Proof.
  unfold KellyErrorEstimator.face_normal.
  destruct (Dimension pmesh =? SpaceDimension pmesh); [by eexists _, _|].
  destruct b; by eexists _, _.
Qed.

Lemma side1_loop_state (pmesh : ParMesh) flux rule pf pl FT :
  exists pl' jumps,
    side1_loop pmesh flux (with_points pf pl FT) rule =
    (with_points (default pf (Some <$> list.last rule)) pl' FT, jumps) /\
    length jumps = length rule.
Proof.
  revert pf pl. induction rule as [|fip rule IH]; intros pf pl; simpl.
  - by eexists _, _.
  - unfold KellyErrorEstimator.side1_point.
    destruct (face_normal_state pmesh true fip pf pl FT) as (pl1 & n & ->).
    destruct (IH (Some fip) pl1) as (pl2 & jumps & -> & Hlen).
    assert (default (Some fip) (Some <$> list.last rule) =
            default pf (Some <$> list.last (fip :: rule))) as ->.
    { rewrite (last_cons fip rule). by destruct (list.last rule). }
    eexists pl2, _. split; [reflexivity|]. simpl. by rewrite Hlen.
Qed.

Lemma side2_loop_state (pmesh : ParMesh) flux (b : bool) rule jumps pf pl FT :
  length jumps = length rule ->
  exists pl' jumps',
    side2_loop pmesh flux b (with_points pf pl FT) rule jumps =
    (with_points (default pf (Some <$> list.last rule)) pl' FT, jumps') /\
    length jumps' = length rule.
Proof.
  revert jumps pf pl.
  induction rule as [|fip rule IH]; intros [|j jumps] pf pl Hlen; simpl in *;
    try done.
  - by eexists _, _.
  - unfold KellyErrorEstimator.side2_point.
    destruct (face_normal_state pmesh b fip pf pl FT) as (pl1 & n & ->).
    destruct (IH jumps (Some fip) pl1 ltac:(lia)) as (pl2 & jumps' & -> & Hlen').
    assert (default (Some fip) (Some <$> list.last rule) =
            default pf (Some <$> list.last (fip :: rule))) as ->.
    { rewrite (last_cons fip rule). by destruct (list.last rule). }
    eexists pl2, _. split; [reflexivity|]. simpl. by rewrite Hlen'.
Qed.

(** X7: whatever the dimensions and in both passes, the two point loops
    of a face produce one jump per point of the rule (none for an empty
    rule), and the only things they change in the face transformations
    are the current points of [Face] and of [Loc1.Transf]: element 1,
    element 2, [Loc2] and the element numbers are as before, no
    integration point is ever set on them, and [Face] ends at the last
    point of the rule. *)
Theorem point_loops_frame (pmesh : ParMesh) flux (set_loc1 : bool) FT rule :
  let after1 := side1_loop pmesh flux FT rule in
  let after2 := side2_loop pmesh flux set_loc1 after1.1 rule after1.2 in
  length (face_jumps pmesh flux set_loc1 FT rule) = length rule /\
  face_jumps pmesh flux set_loc1 FT rule = after2.2 /\
  Elem1 after2.1 = Elem1 FT /\ Elem2 after2.1 = Elem2 FT /\
  Loc2 after2.1 = Loc2 FT /\ Transform (Loc1 after2.1) = Transform (Loc1 FT) /\
  Elem1No after2.1 = Elem1No FT /\ Elem2No after2.1 = Elem2No FT /\
  IntPoint (Face after2.1) =
    default (IntPoint (Face FT)) (Some <$> list.last rule).
Proof.
  intros after1 after2. unfold KellyErrorEstimator.face_jumps.
  fold after1. subst after2.
  destruct (side1_loop_state pmesh flux rule (IntPoint (Face FT))
              (IntPoint (Transf (Loc1 FT))) FT) as (pl1 & jumps & H1 & Hlen).
  rewrite KellyFacts.with_points_current in H1. subst after1. rewrite H1. simpl.
  destruct (side2_loop_state pmesh flux set_loc1 rule jumps
              (default (IntPoint (Face FT)) (Some <$> list.last rule)) pl1 FT Hlen)
    as (pl2 & jumps' & -> & Hlen').
  simpl. repeat split; try done.
  by destruct (list.last rule).
Qed.

(** *** The recovered flux *)

(** X8: in the recovered flux of a discontinuous space the entries of an
    element that passes the filter hold its element flux: each degree of
    freedom of the element, listed once and shared with no other element
    that passes the filter, holds [0 + x] for the flux value [x] the
    integrator gave at that position. *)
Theorem recovered_flux_values st fs flux e (k : nat) (j : Z) (x : double) :
  let xfes := FESpace (solution st) in
  let el_f := ComputeElementFlux xfes fs e
                (GetSubVector (data (solution st)) (GetElementVDofs xfes e)) in
  recover_flux st fs = Some flux ->
  (e < FES_GetNE xfes)%nat ->
  excluded (attributes st) (GetAttribute xfes e) = false ->
  NoDup (GetElementVDofs fs e) ->
  (forall e' i, (e' < FES_GetNE xfes)%nat -> e' <> e ->
     excluded (attributes st) (GetAttribute xfes e') = false ->
     i ∈ GetElementVDofs fs e' -> i ∉ GetElementVDofs fs e) ->
  GetElementVDofs fs e !! k = Some j ->
  el_f !! k = Some x ->
  data flux !! Z.to_nat j = Some (0 + x)%float.
Proof.
  intros xfes el_f Hflux He Hin Hnodup Hdisj Hj Hx.
  apply KellyFacts.recover_flux_data in Hflux as [_ Hloop]. fold xfes in Hloop.
  set (n := FES_GetNE xfes) in *.
  assert (seq 0 n = seq 0 e ++ e :: seq (S e) (n - S e)) as Hsplit.
  { replace n with (e + S (n - S e))%nat at 1 by lia.
    by rewrite seq_app. }
  rewrite Hsplit, for_each_app in Hloop.
  destruct (for_each _ (seq 0 e) _) as [v1|] eqn:Hbefore; [|done].
  simpl in Hloop.
  destruct (flux_element st fs e v1) as [v2|] eqn:Hat; [|done].
  (* other elements leave the entry alone *)
  assert (forall (l : list nat) u u',
            (forall e', e' ∈ l -> (e' < n)%nat /\ e' <> e) ->
            for_each (flux_element st fs) l u = Some u' ->
            0 <= j -> u' !! Z.to_nat j = u !! Z.to_nat j) as Hframe.
  { intros l u u' Hl Hrun Hj0. revert Hrun.
    apply (for_each_invariant (fun w => w !! Z.to_nat j = u !! Z.to_nat j));
      [|done].
    intros e' w w' He' Hw Hstep. rewrite <- Hw. revert Hstep.
    unfold KellyErrorEstimator.flux_element. fold xfes.
    destruct (excluded _ (GetAttribute xfes e')) eqn:Hex; [by intros [= ->]|].
    intros Hadd. eapply AddElementVector_frame; [exact Hadd|].
    rewrite Z2Nat.id by done. intros Hmem.
    destruct (Hl e' He') as [Hlt Hne].
    eapply Hdisj; [exact Hlt | exact Hne | exact Hex | exact Hmem |].
    by eapply list_elem_of_lookup_2. }
  revert Hat. unfold KellyErrorEstimator.flux_element. fold xfes.
  rewrite Hin. fold el_f. intros Hadd.
  assert (0 <= j) as Hj0.
  { assert (is_Some (AddElementVector (GetElementVDofs fs e) el_f v1))
      as [_ Hall]%AddElementVector_is_Some by (by rewrite Hadd).
    apply list_elem_of_lookup_2 in Hj.
    pose proof (proj1 (list.Forall_forall _ _) Hall j Hj) as Hr. simpl in Hr. lia. }
  rewrite (Hframe (seq (S e) (n - S e)) _ _
             ltac:(intros e' [? ?]%elem_of_seq; lia) Hloop Hj0).
  rewrite (AddElementVector_lookup _ _ _ _ k j x Hadd Hnodup Hj Hx).
  rewrite (Hframe (seq 0 e) _ _
             ltac:(intros e' [? ?]%elem_of_seq; lia) Hbefore Hj0).
  assert (Z.to_nat j < GetVSize fs)%nat as Hsize.
  { assert (is_Some (AddElementVector (GetElementVDofs fs e) el_f v1))
      as [_ Hall]%AddElementVector_is_Some by (by rewrite Hadd).
    apply list_elem_of_lookup_2 in Hj.
    pose proof (proj1 (list.Forall_forall _ _) Hall j Hj) as Hr. simpl in Hr.
    assert (length v1 = GetVSize fs) as Hlen.
    { revert Hbefore.
      apply (for_each_invariant (fun w => length w = GetVSize fs));
        [|apply length_replicate].
      intros a w w' _ Hw Hs. rewrite <- Hw.
      by eapply KellyFacts.flux_element_length. }
    lia. }
  by rewrite lookup_replicate_2.
Qed.

(** *** An element with a single face *)

(** X11: an element that is adjacent to exactly one integrated local
    face, whose two elements differ, and is the first element of no shared
    face passing the filter ends a returning call with the estimate
    [sqrt (factor * (0 + J))], [J] being that face's jump integral over the
    recovered flux. *)
Theorem single_face_estimate allreduce st st' e f0 :
  let xfes := FESpace (solution st) in
  let pmesh := GetMesh xfes in
  let FT := GetFaceElementTransformations pmesh f0 in
  ComputeEstimates allreduce st = Done st' ->
  (f0 < GetNumFaces pmesh)%nat ->
  integrated st f0 = true ->
  Elem1No FT <> Elem2No FT ->
  Elem1No FT = Z.of_nat e \/ Elem2No FT = Z.of_nat e ->
  (forall f, (f < GetNumFaces pmesh)%nat -> f <> f0 -> integrated st f = true ->
     Elem1No (GetFaceElementTransformations pmesh f) <> Z.of_nat e /\
     Elem2No (GetFaceElementTransformations pmesh f) <> Z.of_nat e) ->
  (forall sf, (sf < GetNSharedFaces pmesh)%nat ->
     face_excluded (attributes st) (GetSharedFaceTransformations pmesh sf) = false ->
     Elem1No (GetSharedFaceTransformations pmesh sf) <> Z.of_nat e) ->
  exists flux,
    recover_flux (started st) (Update (flux_space st)) = Some flux /\
    error_estimates st' !! e =
    Some (PrimFloat.sqrt
            (compute_element_coefficient st pmesh e *
             (0 + jump_integral (compute_face_coefficient st pmesh f0 false)
                    (face_jumps pmesh flux true FT (local_int_rule st f0))))).
Proof.
  intros xfes pmesh FT Hdone Hf0 Hint Hne Hadj Hlocal Hshared.
  apply KellyFacts.ComputeEstimates_Done in Hdone as (st1 & Hl & ->).
  apply KellyFacts.ComputeEstimates_local_Done in Hl
    as (_ & flux & errors & sums & Hflux & Hl & Hs & ->).
  exists flux. split; [exact Hflux|].
  rewrite KellyFacts.started_estimates in Hl.
  assert (length sums = GetNE pmesh) as Hlen.
  { rewrite (KellyFacts.shared_faces_length _ _ _ _ _ _ _ _ Hs).
    rewrite (KellyFacts.local_faces_length _ _ _ _ _ _ _ _ Hl).
    apply length_replicate. }
  set (J := jump_integral (compute_face_coefficient st pmesh f0 false)
              (face_jumps pmesh flux true FT (local_int_rule st f0))).
  set (n := GetNumFaces pmesh).
  assert (forall (l : list nat) u u',
            (forall f, f ∈ l -> (f < n)%nat /\ f <> f0) ->
            for_each (local_face (started st) flux) l u = Some u' ->
            u' !! e = u !! e) as Hframe.
  { intros l u u' Hl' Hrun. revert Hrun.
    apply (for_each_invariant (fun w => w !! e = u !! e)); [|done].
    intros f w w' Hf Hw Hstep. rewrite <- Hw.
    eapply local_face_frame; [exact Hstep|].
    intros Hi. destruct (Hl' f Hf) as [Hlt Hnf]. by apply Hlocal. }
  unfold KellyErrorEstimator.local_faces in Hl.
  change (GetNumFaces (GetMesh (FESpace (solution (started st))))) with n in Hl.
  assert (seq 0 n = seq 0 f0 ++ f0 :: seq (S f0) (n - S f0)) as Hsplit.
  { replace n with (f0 + S (n - S f0))%nat at 1 by (unfold n; lia).
    by rewrite seq_app. }
  rewrite Hsplit, for_each_app in Hl.
  destruct (for_each _ (seq 0 f0) _) as [v1|] eqn:Hbefore; [|done].
  simpl in Hl.
  destruct (local_face (started st) flux f0 v1) as [v2|] eqn:Hat; [|done].
  assert (errors !! e = Some (0 + J)%float) as Herr.
  { rewrite (Hframe (seq (S f0) (n - S f0)) _ _
               ltac:(intros f [? ?]%elem_of_seq; unfold n in *; lia) Hl).
    pose proof (Hframe (seq 0 f0) _ _
                  ltac:(intros f [? ?]%elem_of_seq; unfold n in *; lia) Hbefore)
      as Hv1.
    rewrite KellyFacts.local_face_unfold in Hat.
    change (integrated (started st) f0) with (integrated st f0) in Hat.
    rewrite Hint in Hat. unfold KellyErrorEstimator.local_face_body in Hat.
    change (GetFaceElementTransformations
              (GetMesh (FESpace (solution (started st)))) f0) with FT in Hat.
    change (jump_integral _ _) with J in Hat.
    destruct (AddAt v1 (Elem1No FT) J) as [w|] eqn:Hw; [|done].
    pose proof Hw as [Hr1 _]%AddAt_Some. pose proof Hat as [Hr2 _]%AddAt_Some.
    rewrite (AddAt_length _ _ _ _ Hw) in Hr2.
    assert (v1 !! e = Some 0%float) as Hzero.
    { rewrite Hv1. apply lookup_replicate_2.
      assert (length v1 = FES_GetNE (FESpace (solution st))) as <-; [|lia].
      revert Hbefore.
      apply (for_each_invariant
               (fun u => length u = FES_GetNE (FESpace (solution st))));
        [|apply length_replicate].
      intros a u u' _ Hu Hb. rewrite <- Hu.
      by eapply KellyFacts.local_face_length. }
    destruct Hadj as [H1|H2].
    - rewrite (AddAt_lookup_ne _ _ _ _ e Hat) by lia.
      replace e with (Z.to_nat (Elem1No FT)) at 1 by lia.
      rewrite (AddAt_lookup _ _ _ _ Hw).
      replace (Z.to_nat (Elem1No FT)) with e by lia. by rewrite Hzero.
    - replace e with (Z.to_nat (Elem2No FT)) at 1 by lia.
      rewrite (AddAt_lookup _ _ _ _ Hat).
      rewrite (AddAt_lookup_ne _ _ _ _ _ Hw) by lia.
      replace (Z.to_nat (Elem2No FT)) with e by lia. by rewrite Hzero. }
  assert (sums !! e = Some (0 + J)%float) as Hsum.
  { revert Hs. unfold KellyErrorEstimator.shared_faces.
    apply (for_each_invariant (fun v => v !! e = Some (0 + J)%float)); [|done].
    intros sf v v' Hf%elem_of_seq Hv Hstep. rewrite <- Hv.
    eapply shared_face_frame; [exact Hstep|].
    intros SFT Hx. apply Hshared; [|done]. unfold pmesh, xfes. simpl in Hf. lia. }
  simpl. rewrite KellyFacts.finalize_lookup.
  change (solution (started st)) with (solution st). fold xfes.
  unfold FES_GetNE. fold pmesh.
  assert (e < GetNE pmesh)%nat as He.
  { rewrite <- Hlen. by eapply lookup_lt_Some. }
  destruct (Nat.ltb_spec e (GetNE pmesh)); [|lia]. by rewrite Hsum.
Qed.

End Facts.
End KellyMore.

(** ** More on the sibling estimators *)
Module FamilyMore.

Section Facts.

Variable Update : FiniteElementSpace -> FiniteElementSpace.
Variable ZZErrorEstimator :
  GridFunction -> GridFunction -> Vector -> option (list Z) -> Z -> bool ->
  double * Vector * option (list Z).
Variables Coefficient VectorCoefficient : Type.
Variable ComputeElementLpErrors :
  GridFunction -> Z -> Coefficient -> Vector -> Vector.
Variable ComputeElementLpErrors_v :
  GridFunction -> Z -> VectorCoefficient -> Vector -> Vector.

Local Abbreviation ZZ_ComputeEstimates :=
  (ZienkiewiczZhuEstimator.ComputeEstimates Update ZZErrorEstimator).
Local Abbreviation Lp_ComputeEstimates :=
  (LpErrorEstimator.ComputeEstimates Coefficient VectorCoefficient
     ComputeElementLpErrors ComputeElementLpErrors_v).

(** X9: the outcome of the Lp estimator.  The call fails exactly when
    both coefficients are missing, and then in the state it was called
    in; otherwise it returns.  A scalar coefficient, when set, is the one
    used, whether or not a vector coefficient is set as well; the vector
    coefficient is used only when there is no scalar one.  The routine is
    handed a vector of one entry per element, and the exponent and the
    coefficients of the estimator stay as they were. *)
Theorem Lp_outcome (lp : LpErrorEstimator.t Coefficient VectorCoefficient) :
  let mesh := GetMesh (FESpace (LpErrorEstimator.sol _ _ lp)) in
  let sized := SetSize (GetNE mesh) (LpErrorEstimator.error_estimates _ _ lp) in
  let p := LpErrorEstimator.local_norm_p _ _ lp in
  (forall s, Lp_ComputeEstimates lp = Aborted s <->
     LpErrorEstimator.coef _ _ lp = None /\
     LpErrorEstimator.vcoef _ _ lp = None /\ s = lp) /\
  Lp_ComputeEstimates lp <> Undefined /\
  length sized = GetNE mesh /\
  (forall c, LpErrorEstimator.coef _ _ lp = Some c ->
     Lp_ComputeEstimates lp =
     Done (LpErrorEstimator.set_estimates _ _
             (ComputeElementLpErrors (LpErrorEstimator.sol _ _ lp) p c sized)
             (GetSequence mesh) lp)) /\
  (forall vc, LpErrorEstimator.coef _ _ lp = None ->
     LpErrorEstimator.vcoef _ _ lp = Some vc ->
     Lp_ComputeEstimates lp =
     Done (LpErrorEstimator.set_estimates _ _
             (ComputeElementLpErrors_v (LpErrorEstimator.sol _ _ lp) p vc sized)
             (GetSequence mesh) lp)) /\
  (forall lp', Lp_ComputeEstimates lp = Done lp' ->
     LpErrorEstimator.local_norm_p _ _ lp' = p /\
     LpErrorEstimator.coef _ _ lp' = LpErrorEstimator.coef _ _ lp /\
     LpErrorEstimator.vcoef _ _ lp' = LpErrorEstimator.vcoef _ _ lp /\
     LpErrorEstimator.sol _ _ lp' = LpErrorEstimator.sol _ _ lp).
Proof.
  intros mesh sized p. unfold LpErrorEstimator.ComputeEstimates.
  fold mesh sized p.
  destruct (LpErrorEstimator.coef _ _ lp) as [c|] eqn:Hc;
    destruct (LpErrorEstimator.vcoef _ _ lp) as [vc|] eqn:Hvc; simpl;
    (split; [intros s; split; [try done; by intros [= <-] | by intros (? & ? & ->)]|]);
    (split; [done|]); (split; [apply length_resize|]);
    (split; [by intros ? [= <-]|]); (split; [by intros ? ? [= <-]|]);
    try done; by intros lp' [= <-].
Qed.

(** X10: the anisotropy flags of the Zienkiewicz-Zhu estimator.  The
    call always returns, with the flux space updated.  When the estimator
    is not anisotropic its flags are emptied and the routine is handed no
    flags (NULL); when it is, the routine is handed the estimator's
    flags.  The routine is assumed to leave no flags when it is handed
    none. *)
Theorem ZZ_flags (zz : ZienkiewiczZhuEstimator.t) :
  (forall sol flux errors avg wc,
     (ZZErrorEstimator sol flux errors None avg wc).2 = None) ->
  let handed := if ZienkiewiczZhuEstimator.anisotropic zz
                then Some (ZienkiewiczZhuEstimator.aniso_flags zz) else None in
  let result :=
    ZZErrorEstimator (ZienkiewiczZhuEstimator.solution zz)
      (GridFunction_new (Update (ZienkiewiczZhuEstimator.flux_space zz)))
      (ZienkiewiczZhuEstimator.error_estimates zz) handed
      (ZienkiewiczZhuEstimator.flux_averaging zz)
      (ZienkiewiczZhuEstimator.with_coeff zz) in
  exists zz',
    ZZ_ComputeEstimates zz = Done zz' /\
    ZienkiewiczZhuEstimator.total_error zz' = result.1.1 /\
    ZienkiewiczZhuEstimator.error_estimates zz' = result.1.2 /\
    ZienkiewiczZhuEstimator.flux_space zz' =
      Update (ZienkiewiczZhuEstimator.flux_space zz) /\
    (ZienkiewiczZhuEstimator.anisotropic zz = false ->
     ZienkiewiczZhuEstimator.aniso_flags zz' = []).
Proof.
  intros Hnull handed result.
  unfold ZienkiewiczZhuEstimator.ComputeEstimates.
  subst result handed.
  destruct (ZienkiewiczZhuEstimator.anisotropic zz) eqn:Haniso.
  - destruct (ZZErrorEstimator _ _ _ _ _ _) as [[total errors] flags].
    eexists. by repeat split.
  - match goal with |- context [ZZErrorEstimator ?s ?f ?e None ?a ?w] =>
      pose proof (Hnull s f e a w) as Hflags;
      destruct (ZZErrorEstimator s f e None a w) as [[total errors] flags] end.
    simpl in Hflags. subst flags. eexists. by repeat split.
Qed.

End Facts.
End FamilyMore.

(** ** The further statements on the small configuration *)
Module MoreExamples.
Import Fixture FixtureRuns.

Local Abbreviation face_jumps :=
  (KellyErrorEstimator.face_jumps GetVectorValue CalcOrtho MultTranspose).

(** Witness of X2: with the filter [{1}] no face is integrated, so
    element 0 ends with [sqrt (1 * 0)]. *)
Lemma untouched_element_witness :
  run true [1; 0]%float (fun a => a) filtered = Done filtered_final /\
  KellyErrorEstimator.error_estimates filtered_final !! 0%nat =
  Some (PrimFloat.sqrt (1 * 0)).
Proof.
  assert (run true [1; 0]%float (fun a => a) filtered = Done filtered_final)
    as Hrun by (vm_compute; reflexivity).
  split; [exact Hrun|].
  apply (KellyMore.untouched_element_estimate _ _ _ _ _ _ _ _ _ _ _ _ 0%nat Hrun).
  - cbn. lia.
  - intros f Hf Hint.
    destruct f as [|[|[|f]]]; [discriminate Hint..|cbn in Hf; lia].
  - intros sf Hsf Hex. destruct sf as [|sf]; [discriminate Hex|cbn in Hsf; lia].
Defined.

(** Witness of X4: the continuous configuration, recomputed. *)
Lemma recomputation_witness :
  run true [1; 0]%float (fun a => a) continuous = Done continuous_final /\
  run true [1; 0]%float (fun a => a)
    (KellyErrorEstimator.set_error_estimates [7; 7; 7]%float
       (KellyErrorEstimator.set_total_error 7%float
          (KellyErrorEstimator.set_current_sequence 3 continuous)))
  = Done continuous_final /\
  run true [1; 0]%float (fun a => a) continuous_final = Done continuous_final.
Proof.
  assert (run true [1; 0]%float (fun a => a) continuous = Done continuous_final)
    as Hrun by (vm_compute; reflexivity).
  destruct (KellyMore.recomputation true Update GetSubVector ComputeElementFlux
              GetVectorValue (ExchangeFaceNbrData [1; 0]%float) CalcOrtho
              MultTranspose IntRules_Get continuous continuous_final
              (fun a => a) [7; 7; 7]%float 7%float 3 Hrun)
    as [Hover Hagain].
  exact (conj Hrun (conj Hover (Hagain eq_refl))).
Defined.

(** Witness of X5: the interior face of the unit mesh. *)
Lemma full_dimension_witness :
  Dimension unit_mesh = SpaceDimension unit_mesh /\
  face_jumps unit_mesh continuous_flux true
    (GetFaceElementTransformations unit_mesh 1) [mid; mid] =
  face_jumps unit_mesh continuous_flux false
    (GetFaceElementTransformations unit_mesh 1) [mid; mid].
Proof.
  destruct (KellyMore.full_dimension_jumps GetVectorValue CalcOrtho MultTranspose
              unit_mesh continuous_flux true
              (GetFaceElementTransformations unit_mesh 1) [mid; mid] eq_refl)
    as [_ Hsame].
  exact (conj eq_refl Hsame).
Defined.

(** Witness of X6: the shared face of the embedded mesh, whose
    face-to-element map has a constant Jacobian. *)
Lemma embedded_passes_witness :
  Dimension embedded_mesh <> SpaceDimension embedded_mesh /\
  face_jumps embedded_mesh exchanged_flux false
    (GetSharedFaceTransformations embedded_mesh 0) [mid; mid] =
  face_jumps embedded_mesh exchanged_flux true
    (GetSharedFaceTransformations embedded_mesh 0) [mid; mid].
Proof.
  assert (Dimension embedded_mesh <> SpaceDimension embedded_mesh) as Hdim
    by (cbn; lia).
  split; [exact Hdim|].
  apply (KellyMore.embedded_passes_agree GetVectorValue CalcOrtho MultTranspose
           embedded_mesh exchanged_flux
           (GetSharedFaceTransformations embedded_mesh 0) [mid; mid] Hdim).
  intros p _. reflexivity.
Defined.

(** Witness of X8: element 1 of the continuous configuration has the
    degrees of freedom 2 and 3; entry 2 holds [0 + 1]. *)
Lemma recovered_flux_witness :
  KellyErrorEstimator.recover_flux GetSubVector ComputeElementFlux continuous
    (fluxes unit_mesh 7) = Some continuous_recovered /\
  data continuous_recovered !! 2%nat = Some (0 + 1)%float.
Proof.
  assert (KellyErrorEstimator.recover_flux GetSubVector ComputeElementFlux
            continuous (fluxes unit_mesh 7) = Some continuous_recovered) as Hflux
    by (vm_compute; reflexivity).
  split; [exact Hflux|].
  apply (KellyMore.recovered_flux_values GetSubVector ComputeElementFlux
           continuous (fluxes unit_mesh 7) continuous_recovered 1%nat 0%nat 2
           1%float Hflux).
  - cbn. lia.
  - reflexivity.
  - change (NoDup [2; 3]). apply NoDup_cons_2.
    + apply not_elem_of_cons. split; [done | apply not_elem_of_nil].
    + apply NoDup_cons_2; [apply not_elem_of_nil | apply NoDup_nil_2].
  - intros e' i He' Hne _ Hi.
    destruct e' as [|[|e']]; [|done|cbn in He'; lia].
    cbn in Hi |- *.
    apply elem_of_cons in Hi as [->|Hi];
      [|apply elem_of_cons in Hi as [->|Hi]; [|by apply elem_of_nil in Hi]];
      (apply not_elem_of_cons; split; [done|]);
      (apply not_elem_of_cons; split; [done | apply not_elem_of_nil]).
  - reflexivity.
  - reflexivity.
Defined.

(** Witness of X10: the isotropic estimator of the configuration, whose
    routine leaves the flags it is handed. *)
Lemma ZZ_flags_witness :
  ZienkiewiczZhuEstimator.anisotropic zz = false /\
  exists zz',
    ZienkiewiczZhuEstimator.ComputeEstimates Update ZZErrorEstimator zz = Done zz' /\
    ZienkiewiczZhuEstimator.aniso_flags zz' = [].
Proof.
  destruct (FamilyMore.ZZ_flags Update ZZErrorEstimator zz
              ltac:(intros; reflexivity)) as (zz' & Hrun & _ & _ & _ & Hflags).
  split; [reflexivity|]. exists zz'. exact (conj Hrun (Hflags eq_refl)).
Defined.

(** Witness of X11: element 0 of the continuous configuration is
    adjacent to the interior face only. *)
Lemma single_face_witness :
  run true [1; 0]%float (fun a => a) continuous = Done continuous_final /\
  exists flux,
    KellyErrorEstimator.recover_flux GetSubVector ComputeElementFlux
      (KellyErrorEstimator.started Update continuous)
      (Update (KellyErrorEstimator.flux_space continuous)) = Some flux /\
    KellyErrorEstimator.error_estimates continuous_final !! 0%nat =
    Some (PrimFloat.sqrt
            (1 * (0 + KellyErrorEstimator.jump_integral 1
                        (face_jumps unit_mesh flux true
                           (GetFaceElementTransformations unit_mesh 1)
                           (KellyErrorEstimator.local_int_rule IntRules_Get
                              continuous 1))))).
Proof.
  assert (run true [1; 0]%float (fun a => a) continuous = Done continuous_final)
    as Hrun by (vm_compute; reflexivity).
  split; [exact Hrun|].
  apply (KellyMore.single_face_estimate _ _ _ _ _ _ _ _ _ _ _ _ 0%nat 1%nat Hrun).
  - cbn. lia.
  - reflexivity.
  - cbn. lia.
  - left. reflexivity.
  - intros f Hf Hne Hint.
    destruct f as [|[|[|f]]]; [discriminate Hint|done|discriminate Hint|cbn in Hf; lia].
  - intros sf Hsf _. destruct sf as [|sf]; [cbn; lia|cbn in Hsf; lia].
Defined.

End MoreExamples.
